(** * Druta CLI: a shallow embedding of [index.js]

    The command-line tool scaffolds and removes component directories for
    Next.js, Expo and React Native projects.  This development embeds the
    program as functions over an explicit world (a directory tree and the
    console) and proves properties of the dispatcher, of the interactive
    prompt and of the six platform handlers.

    Modelling conventions.
    - JavaScript strings are Rocq strings holding their UTF-8 bytes.
      Upper-casing and white space follow Unicode 14.0.
    - The ambient file system is a tree of regular files and directories
      whose root is the directory "/".  Paths are the POSIX paths that
      [path.join] returns: a list of segments below the root and a flag
      recording a trailing separator.  What the operating system refuses
      for reasons that the tree does not show (a name that is too long, a
      missing permission, a full disk) is a parameter of the calls that
      create directories and files.
    - [async] functions are awaited one after the other in the source, so
      they are modelled as sequential computations.  A computation returns,
      throws a JavaScript error, terminates the process ([process.exit]) or
      stays blocked on a prompt whose input has run out. *)

From Stdlib Require Import Ascii String NArith.
From stdpp Require Import gmap strings list.

Set Warnings "-register-all".
Local Open Scope string_scope.
Local Open Scope list_scope.

(** ** JavaScript string primitives *)

(** The double-quote character, used inside error messages. *)
Definition dq : string := String "034"%char "".

(** *** UTF-8

    A string holds the UTF-8 bytes of the JavaScript string.  The two
    places where the program looks inside a name, [charAt(0)] with
    [toUpperCase] and [trim], are stated on its characters. *)

Definition is_continuation (c : ascii) : bool :=
  ((128 <=? N_of_ascii c) && (N_of_ascii c <? 192))%N.

(** The six low bits that a continuation byte carries. *)
Definition payload (c : ascii) : N := (N_of_ascii c mod 64)%N.

(** The first character of a string, as its code point, and what follows
    it; [None] for the empty string and for bytes that are not the
    shortest UTF-8 form of a code point. *)
Definition decode_first (s : string) : option (N * string) :=
  match s with
  | EmptyString => None
  | String c0 s1 =>
      let b0 := N_of_ascii c0 in
      if (b0 <? 128)%N then Some (b0, s1)
      else if ((194 <=? b0) && (b0 <? 224))%N then
        match s1 with
        | String c1 s2 =>
            if is_continuation c1
            then Some (((b0 - 192) * 64 + payload c1)%N, s2)
            else None
        | _ => None
        end
      else if ((224 <=? b0) && (b0 <? 240))%N then
        match s1 with
        | String c1 (String c2 s3) =>
            let cp := ((b0 - 224) * 4096 + payload c1 * 64 + payload c2)%N in
            if is_continuation c1 && is_continuation c2 && (2048 <=? cp)%N
            then Some (cp, s3)
            else None
        | _ => None
        end
      else if ((240 <=? b0) && (b0 <? 245))%N then
        match s1 with
        | String c1 (String c2 (String c3 s4)) =>
            let cp := ((b0 - 240) * 262144 + payload c1 * 4096 +
                       payload c2 * 64 + payload c3)%N in
            if is_continuation c1 && is_continuation c2 && is_continuation c3 &&
               (65536 <=? cp)%N && (cp <? 1114112)%N
            then Some (cp, s4)
            else None
        | _ => None
        end
      else None
  end.

(** The UTF-8 bytes of a code point. *)
Definition encode_point (cp : N) : string :=
  if (cp <? 128)%N then String (ascii_of_N cp) ""
  else if (cp <? 2048)%N then
    String (ascii_of_N (192 + cp / 64))
      (String (ascii_of_N (128 + cp mod 64)) "")
  else if (cp <? 65536)%N then
    String (ascii_of_N (224 + cp / 4096))
      (String (ascii_of_N (128 + (cp / 64) mod 64))
         (String (ascii_of_N (128 + cp mod 64)) ""))
  else
    String (ascii_of_N (240 + cp / 262144))
      (String (ascii_of_N (128 + (cp / 4096) mod 64))
         (String (ascii_of_N (128 + (cp / 64) mod 64))
            (String (ascii_of_N (128 + cp mod 64)) ""))).

Fixpoint encode_utf8 (l : list N) : string :=
  match l with
  | [] => ""
  | cp :: l' => encode_point cp +:+ encode_utf8 l'
  end.

(** *** Upper case

    The case mapping of Unicode 14.0 for the characters below U+10000.
    An entry [(first, last, stride, upper)] of [upper_ranges] maps the
    code points [first], [first + stride], ... up to [last] to [upper],
    [upper + stride], ...; an entry of [upper_special] gives the
    characters that become several ones. *)

Definition upper_ranges : list (N * N * N * N) :=
  [
   (97, 122, 1, 65); (181, 181, 1, 924); (224, 246, 1, 192); (248, 254, 1, 216);
   (255, 255, 1, 376); (257, 303, 2, 256); (305, 305, 1, 73); (307, 311, 2, 306);
   (314, 328, 2, 313); (331, 375, 2, 330); (378, 382, 2, 377); (383, 383, 1, 83);
   (384, 384, 1, 579); (387, 389, 2, 386); (392, 392, 1, 391); (396, 396, 1, 395);
   (402, 402, 1, 401); (405, 405, 1, 502); (409, 409, 1, 408); (410, 410, 1, 573);
   (414, 414, 1, 544); (417, 421, 2, 416); (424, 424, 1, 423); (429, 429, 1, 428);
   (432, 432, 1, 431); (436, 438, 2, 435); (441, 441, 1, 440); (445, 445, 1, 444);
   (447, 447, 1, 503); (453, 453, 1, 452); (454, 454, 1, 452); (456, 456, 1, 455);
   (457, 457, 1, 455); (459, 459, 1, 458); (460, 460, 1, 458); (462, 476, 2, 461);
   (477, 477, 1, 398); (479, 495, 2, 478); (498, 498, 1, 497); (499, 499, 1, 497);
   (501, 501, 1, 500); (505, 543, 2, 504); (547, 563, 2, 546); (572, 572, 1, 571);
   (575, 576, 1, 11390); (578, 578, 1, 577); (583, 591, 2, 582); (592, 592, 1, 11375);
   (593, 593, 1, 11373); (594, 594, 1, 11376); (595, 595, 1, 385); (596, 596, 1, 390);
   (598, 599, 1, 393); (601, 601, 1, 399); (603, 603, 1, 400); (604, 604, 1, 42923);
   (608, 608, 1, 403); (609, 609, 1, 42924); (611, 611, 1, 404); (613, 613, 1, 42893);
   (614, 614, 1, 42922); (616, 616, 1, 407); (617, 617, 1, 406); (618, 618, 1, 42926);
   (619, 619, 1, 11362); (620, 620, 1, 42925); (623, 623, 1, 412); (625, 625, 1, 11374);
   (626, 626, 1, 413); (629, 629, 1, 415); (637, 637, 1, 11364); (640, 640, 1, 422);
   (642, 642, 1, 42949); (643, 643, 1, 425); (647, 647, 1, 42929); (648, 648, 1, 430);
   (649, 649, 1, 580); (650, 651, 1, 433); (652, 652, 1, 581); (658, 658, 1, 439);
   (669, 669, 1, 42930); (670, 670, 1, 42928); (837, 837, 1, 921); (881, 883, 2, 880);
   (887, 887, 1, 886); (891, 893, 1, 1021); (940, 940, 1, 902); (941, 943, 1, 904);
   (945, 961, 1, 913); (962, 962, 1, 931); (963, 971, 1, 931); (972, 972, 1, 908);
   (973, 974, 1, 910); (976, 976, 1, 914); (977, 977, 1, 920); (981, 981, 1, 934);
   (982, 982, 1, 928); (983, 983, 1, 975); (985, 1007, 2, 984); (1008, 1008, 1, 922);
   (1009, 1009, 1, 929); (1010, 1010, 1, 1017); (1011, 1011, 1, 895); (1013, 1013, 1, 917);
   (1016, 1016, 1, 1015); (1019, 1019, 1, 1018); (1072, 1103, 1, 1040); (1104, 1119, 1, 1024);
   (1121, 1153, 2, 1120); (1163, 1215, 2, 1162); (1218, 1230, 2, 1217); (1231, 1231, 1, 1216);
   (1233, 1327, 2, 1232); (1377, 1414, 1, 1329); (4304, 4346, 1, 7312); (4349, 4351, 1, 7357);
   (5112, 5117, 1, 5104); (7296, 7296, 1, 1042); (7297, 7297, 1, 1044); (7298, 7298, 1, 1054);
   (7299, 7300, 1, 1057); (7301, 7301, 1, 1058); (7302, 7302, 1, 1066); (7303, 7303, 1, 1122);
   (7304, 7304, 1, 42570); (7545, 7545, 1, 42877); (7549, 7549, 1, 11363); (7566, 7566, 1, 42950);
   (7681, 7829, 2, 7680); (7835, 7835, 1, 7776); (7841, 7935, 2, 7840); (7936, 7943, 1, 7944);
   (7952, 7957, 1, 7960); (7968, 7975, 1, 7976); (7984, 7991, 1, 7992); (8000, 8005, 1, 8008);
   (8017, 8023, 2, 8025); (8032, 8039, 1, 8040); (8048, 8049, 1, 8122); (8050, 8053, 1, 8136);
   (8054, 8055, 1, 8154); (8056, 8057, 1, 8184); (8058, 8059, 1, 8170); (8060, 8061, 1, 8186);
   (8112, 8113, 1, 8120); (8126, 8126, 1, 921); (8144, 8145, 1, 8152); (8160, 8161, 1, 8168);
   (8165, 8165, 1, 8172); (8526, 8526, 1, 8498); (8560, 8575, 1, 8544); (8580, 8580, 1, 8579);
   (9424, 9449, 1, 9398); (11312, 11359, 1, 11264); (11361, 11361, 1, 11360); (11365, 11365, 1, 570);
   (11366, 11366, 1, 574); (11368, 11372, 2, 11367); (11379, 11379, 1, 11378); (11382, 11382, 1, 11381);
   (11393, 11491, 2, 11392); (11500, 11502, 2, 11499); (11507, 11507, 1, 11506); (11520, 11557, 1, 4256);
   (11559, 11559, 1, 4295); (11565, 11565, 1, 4301); (42561, 42605, 2, 42560); (42625, 42651, 2, 42624);
   (42787, 42799, 2, 42786); (42803, 42863, 2, 42802); (42874, 42876, 2, 42873); (42879, 42887, 2, 42878);
   (42892, 42892, 1, 42891); (42897, 42899, 2, 42896); (42900, 42900, 1, 42948); (42903, 42921, 2, 42902);
   (42933, 42947, 2, 42932); (42952, 42954, 2, 42951); (42961, 42961, 1, 42960); (42967, 42969, 2, 42966);
   (42998, 42998, 1, 42997); (43859, 43859, 1, 42931); (43888, 43967, 1, 5024); (65345, 65370, 1, 65313)
  ]%N.

Definition upper_special : list (N * list N) :=
  [
   (223, [83; 83]); (329, [700; 78]); (496, [74; 780]); (912, [921; 776; 769]);
   (944, [933; 776; 769]); (1415, [1333; 1362]); (7830, [72; 817]); (7831, [84; 776]);
   (7832, [87; 778]); (7833, [89; 778]); (7834, [65; 702]); (8016, [933; 787]);
   (8018, [933; 787; 768]); (8020, [933; 787; 769]); (8022, [933; 787; 834]); (8064, [7944; 921]);
   (8065, [7945; 921]); (8066, [7946; 921]); (8067, [7947; 921]); (8068, [7948; 921]);
   (8069, [7949; 921]); (8070, [7950; 921]); (8071, [7951; 921]); (8072, [7944; 921]);
   (8073, [7945; 921]); (8074, [7946; 921]); (8075, [7947; 921]); (8076, [7948; 921]);
   (8077, [7949; 921]); (8078, [7950; 921]); (8079, [7951; 921]); (8080, [7976; 921]);
   (8081, [7977; 921]); (8082, [7978; 921]); (8083, [7979; 921]); (8084, [7980; 921]);
   (8085, [7981; 921]); (8086, [7982; 921]); (8087, [7983; 921]); (8088, [7976; 921]);
   (8089, [7977; 921]); (8090, [7978; 921]); (8091, [7979; 921]); (8092, [7980; 921]);
   (8093, [7981; 921]); (8094, [7982; 921]); (8095, [7983; 921]); (8096, [8040; 921]);
   (8097, [8041; 921]); (8098, [8042; 921]); (8099, [8043; 921]); (8100, [8044; 921]);
   (8101, [8045; 921]); (8102, [8046; 921]); (8103, [8047; 921]); (8104, [8040; 921]);
   (8105, [8041; 921]); (8106, [8042; 921]); (8107, [8043; 921]); (8108, [8044; 921]);
   (8109, [8045; 921]); (8110, [8046; 921]); (8111, [8047; 921]); (8114, [8122; 921]);
   (8115, [913; 921]); (8116, [902; 921]); (8118, [913; 834]); (8119, [913; 834; 921]);
   (8124, [913; 921]); (8130, [8138; 921]); (8131, [919; 921]); (8132, [905; 921]);
   (8134, [919; 834]); (8135, [919; 834; 921]); (8140, [919; 921]); (8146, [921; 776; 768]);
   (8147, [921; 776; 769]); (8150, [921; 834]); (8151, [921; 776; 834]); (8162, [933; 776; 768]);
   (8163, [933; 776; 769]); (8164, [929; 787]); (8166, [933; 834]); (8167, [933; 776; 834]);
   (8178, [8186; 921]); (8179, [937; 921]); (8180, [911; 921]); (8182, [937; 834]);
   (8183, [937; 834; 921]); (8188, [937; 921]); (64256, [70; 70]); (64257, [70; 73]);
   (64258, [70; 76]); (64259, [70; 70; 73]); (64260, [70; 70; 76]); (64261, [83; 84]);
   (64262, [83; 84]); (64275, [1348; 1350]); (64276, [1348; 1333]); (64277, [1348; 1339]);
   (64278, [1358; 1350]); (64279, [1348; 1341])
  ]%N.

Fixpoint find_range (cp : N) (l : list (N * N * N * N)) : option N :=
  match l with
  | [] => None
  | (first, last, stride, upper) :: l' =>
      if ((first <=? cp) && (cp <=? last) && ((cp - first) mod stride =? 0))%N
      then Some (upper + (cp - first))%N
      else find_range cp l'
  end.

Fixpoint find_special (cp : N) (l : list (N * list N)) : option (list N) :=
  match l with
  | [] => None
  | (lower, upper) :: l' => if (lower =? cp)%N then Some upper else find_special cp l'
  end.

(** [String.prototype.toUpperCase] on a string of one character below
    U+10000, given and returned as code points. *)
Definition toUpperCase (cp : N) : list N :=
  match find_special cp upper_special with
  | Some upper => upper
  | None =>
      match find_range cp upper_ranges with
      | Some upper => [upper]
      | None => [cp]
      end
  end.

(** The expression
    [componentName.charAt(0).toUpperCase() + componentName.slice(1)]
    that the Next.js templates interpolate.  [charAt(0)] is the first
    UTF-16 code unit.  For a name that begins with a character below
    U+10000 it is that character, and [slice(1)] is what follows it.  For
    a name that begins with a character from U+10000 on it is a lone
    surrogate, which [toUpperCase] leaves as it is, so that the sum is the
    name again; so it is for the empty name. *)
Definition capitalized (componentName : string) : string :=
  match decode_first componentName with
  | Some (cp, rest) =>
      if (cp <? 65536)%N then encode_utf8 (toUpperCase cp) +:+ rest
      else componentName
  | None => componentName
  end.

(** *** White space

    What [String.prototype.trim] strips: the white-space characters and
    line terminators of ECMAScript (tab, line feed, vertical tab, form
    feed, carriage return, space, no-break space, U+1680, U+2000 to
    U+200A, U+2028, U+2029, U+202F, U+205F, U+3000 and U+FEFF). *)
Definition white_space_points : list N :=
  [9; 10; 11; 12; 13; 32; 160; 5760;
   8192; 8193; 8194; 8195; 8196; 8197; 8198; 8199; 8200; 8201; 8202;
   8232; 8233; 8239; 8287; 12288; 65279]%N.

Definition is_white_space (cp : N) : bool := existsb (N.eqb cp) white_space_points.

(** Leading white space is stripped character by character; a string has
    no more characters than bytes, which bounds the number of steps. *)
Fixpoint trimStart_from (steps : nat) (s : string) : string :=
  match steps with
  | O => s
  | S k =>
      match decode_first s with
      | Some (cp, rest) => if is_white_space cp then trimStart_from k rest else s
      | None => s
      end
  end.

Definition trimStart (s : string) : string := trimStart_from (String.length s) s.

(** Trailing white space: a suffix goes when it is white space as a
    whole. *)
Fixpoint trimEnd (s : string) : string :=
  match s with
  | EmptyString => EmptyString
  | String c s' =>
      if String.eqb (trimStart (String c s')) "" then EmptyString
      else String c (trimEnd s')
  end.

Definition trim (s : string) : string := trimEnd (trimStart s).

(** [Array.prototype.includes] on an array of strings. *)
Definition includes (l : list string) (x : string) : bool :=
  existsb (String.eqb x) l.

(** Characters of a string, for statements about its content. *)
Fixpoint chars (s : string) : list ascii :=
  match s with
  | EmptyString => []
  | String c s' => c :: chars s'
  end.

(** ** POSIX paths *)

Record path := Path { segs : list string; trailing : bool }.

(** Splitting at the separator "/"; the result is never empty. *)
Fixpoint split_slash (s : string) : list string :=
  match s with
  | EmptyString => [EmptyString]
  | String c s' =>
      if Ascii.eqb c "/"%char then EmptyString :: split_slash s'
      else match split_slash s' with
           | h :: t => String c h :: t
           | [] => [String c EmptyString]
           end
  end.

Fixpoint ends_with_slash (s : string) : bool :=
  match s with
  | EmptyString => false
  | String c EmptyString => Ascii.eqb c "/"%char
  | String _ s' => ends_with_slash s'
  end.

(** One step of [normalizeString] for an absolute path: empty and "."
    segments vanish, ".." drops the last segment (and is dropped itself at
    the root), any other segment is appended. *)
Definition normalize_step (acc : list string) (seg : string) : list string :=
  if String.eqb seg "" || String.eqb seg "." then acc
  else if String.eqb seg ".." then removelast acc
  else acc ++ [seg].

Definition normalize_onto (base : list string) (parts : list string) : list string :=
  fold_left normalize_step parts base.

(** [path.join(base, name)] for an absolute, normalized [base]: an empty
    [name] is skipped; otherwise [base + "/" + name] is normalized and a
    trailing separator of [name] is kept. *)
Definition path_join (base : path) (name : string) : path :=
  if String.eqb name "" then base
  else Path (normalize_onto (segs base) (split_slash name)) (ends_with_slash name).

(** [process.cwd()]: the working directory, given by its segments. *)
Definition process_cwd (cwd : list string) : path := Path cwd false.

Fixpoint join_segs (l : list string) : string :=
  match l with
  | [] => ""
  | s :: l' => "/" +:+ s +:+ join_segs l'
  end.

Definition path_to_string (p : path) : string :=
  match segs p with
  | [] => "/"
  | l => join_segs l +:+ (if trailing p then "/" else "")
  end.

(** ** The directory tree *)

Inductive node :=
  | File (content : string)
  | Dir (entries : gmap string node).

Definition is_dir (n : node) : bool :=
  match n with Dir _ => true | File _ => false end.

(** Resolution of a list of segments, starting from a node. *)
Fixpoint lookup_path (p : list string) (n : node) : option node :=
  match p with
  | [] => Some n
  | s :: p' =>
      match n with
      | Dir m => match m !! s with
                 | Some c => lookup_path p' c
                 | None => None
                 end
      | File _ => None
      end
  end.

Inductive errno :=
  | EEXIST | ENOTDIR | ENOENT | EISDIR | EBUSY
  | ENAMETOOLONG | EACCES | ENOSPC.

(** The calls that create something.  Besides what the tree decides,
    the operating system may refuse such a call: a name that is too long,
    a missing permission, a full disk.  [refuses call p] is the error it
    raises when [call] is to create the directory or file at the segments
    [p], if any. *)
Inductive syscall := Mkdir | Open.

Class OS := { refuses : syscall → list string → option errno }.

(** [stat] succeeds: something is at the path, and it is a directory when
    the path ends with a separator. *)
Definition fs_exists (t : path) (root : node) : bool :=
  match lookup_path (segs t) root with
  | Some (Dir _) => true
  | Some (File _) => negb (trailing t)
  | None => false
  end.

(** [mkdir -p]: existing directories are kept and missing ones are made
    from the top down, each unless [deny] has an error for it; a regular
    file on the way is an error.  The result is the error, if any, and the
    tree as it then is: directories made before a refusal stay.  [deny]
    speaks of paths relative to [n]. *)
Fixpoint mkdirp (deny : list string → option errno) (p : list string) (n : node)
    : option errno * node :=
  match n with
  | File _ => (Some (match p with [] => EEXIST | _ => ENOTDIR end), n)
  | Dir m =>
      match p with
      | [] => (None, n)
      | s :: p' =>
          match m !! s with
          | Some c =>
              let (r, c') := mkdirp (λ q, deny (s :: q)) p' c in
              (r, Dir (<[s := c']> m))
          | None =>
              match deny [s] with
              | Some e => (Some e, n)
              | None =>
                  let (r, c') := mkdirp (λ q, deny (s :: q)) p' (Dir ∅) in
                  (r, Dir (<[s := c']> m))
              end
          end
      end
  end.

(** [open(O_WRONLY|O_CREAT|O_TRUNC)] followed by a write: the parent must
    be a directory, the target must not be one. *)
Fixpoint write_file (p : list string) (content : string) (n : node) : errno + node :=
  match n with
  | File _ => inl ENOTDIR
  | Dir m =>
      match p with
      | [] => inl EISDIR
      | s :: p' =>
          match p' with
          | [] => match m !! s with
                  | Some (Dir _) => inl EISDIR
                  | _ => inr (Dir (<[s := File content]> m))
                  end
          | _ => match m !! s with
                 | Some c => match write_file p' content c with
                             | inr c' => inr (Dir (<[s := c']> m))
                             | inl e => inl e
                             end
                 | None => inl ENOENT
                 end
          end
      end
  end.

(** Recursive removal of the entry at a non-root path; nothing happens
    when the path does not resolve. *)
Fixpoint remove_tree (p : list string) (n : node) : node :=
  match p with
  | [] => n
  | s :: p' =>
      match n with
      | File _ => n
      | Dir m =>
          match p' with
          | [] => Dir (delete s m)
          | _ => match m !! s with
                 | Some c => Dir (<[s := remove_tree p' c]> m)
                 | None => n
                 end
          end
      end
  end.

(** ** Errors, console and the process monad *)

(** A thrown value: an [Error] made by the program with its message, or an
    error raised by a file-system call. *)
Inductive error :=
  | Error (msg : string)
  | SystemError (code : errno) (syscall : string) (target : path).

Definition errno_text (e : errno) : string :=
  match e with
  | EEXIST => "EEXIST: file already exists"
  | ENOTDIR => "ENOTDIR: not a directory"
  | ENOENT => "ENOENT: no such file or directory"
  | EISDIR => "EISDIR: illegal operation on a directory"
  | EBUSY => "EBUSY: resource busy or locked"
  | ENAMETOOLONG => "ENAMETOOLONG: name too long"
  | EACCES => "EACCES: permission denied"
  | ENOSPC => "ENOSPC: no space left on device"
  end.

(** [error.message] *)
Definition message (e : error) : string :=
  match e with
  | Error msg => msg
  | SystemError code syscall target =>
      errno_text code +:+ ", " +:+ syscall +:+ " '" +:+ path_to_string target +:+ "'"
  end.

Inductive color := Plain | Red | Green | Blue.

(** What the process shows: [console.log] and [console.error] lines with
    their chalk colour, the figlet banner of a title, and the questions and
    validation messages of the prompt. *)
Inductive output :=
  | Log (c : color) (text : string)
  | LogError (c : color) (text : string)
  | Banner (title : string)
  | Question (text : string)
  | Invalid (text : string).

Record world := World { disk : node; console : list output }.

Inductive result (A : Type) :=
  | Ret (a : A)
  | Throw (e : error)
  | Exit (code : nat)
  | Blocked.
Arguments Ret {A} a.
Arguments Throw {A} e.
Arguments Exit {A} code.
Arguments Blocked {A}.

Definition Proc (A : Type) : Type := world → result A * world.

Definition ret {A} (a : A) : Proc A := λ w, (Ret a, w).

Definition bind {A B} (m : Proc A) (k : A → Proc B) : Proc B :=
  λ w, match m w with
       | (Ret a, w') => k a w'
       | (Throw e, w') => (Throw e, w')
       | (Exit c, w') => (Exit c, w')
       | (Blocked, w') => (Blocked, w')
       end.

Notation "'let*' x ':=' m 'in' k" := (bind m (λ x, k))
  (at level 10, x name, m at level 100, k at level 200).
Notation "m '>>' k" := (bind m (λ _, k))
  (at level 100, k at level 200, right associativity).

(** [throw new Error(msg)] and [process.exit(code)]. *)
Definition throw {A} (e : error) : Proc A := λ w, (Throw e, w).
Definition process_exit {A} (code : nat) : Proc A := λ w, (Exit code, w).

(** [try { body } catch (error) { handler(error) }]: only thrown errors
    reach the handler; a process exit passes through. *)
Definition try_catch {A} (body : Proc A) (handler : error → Proc A) : Proc A :=
  λ w, match body w with
       | (Throw e, w') => handler e w'
       | r => r
       end.

Definition emit (o : output) : Proc unit :=
  λ w, (Ret tt, World (disk w) (console w ++ [o])).

Definition console_log (c : color) (text : string) : Proc unit := emit (Log c text).
Definition console_error (c : color) (text : string) : Proc unit := emit (LogError c text).

(** *** The [fs] module *)

Definition existsSync (t : path) : Proc bool :=
  λ w, (Ret (fs_exists t (disk w)), w).

(** [fs.mkdirSync(t, { recursive: true })].  When [mkdir] finds a regular
    file at the target, the [stat] that follows fails on a path written
    with a trailing separator, and it is that failure which is reported. *)
Definition mkdirSync {os : OS} (t : path) : Proc unit :=
  λ w, match mkdirp (refuses Mkdir) (segs t) (disk w) with
       | (None, d) => (Ret tt, World d (console w))
       | (Some EEXIST, d) =>
           (Throw (SystemError (if trailing t then ENOTDIR else EEXIST) "mkdir" t),
            World d (console w))
       | (Some code, d) => (Throw (SystemError code "mkdir" t), World d (console w))
       end.

(** [fs.writeFileSync(t, content)]: nothing is written when the operating
    system refuses to open the file. *)
Definition writeFileSync {os : OS} (t : path) (content : string) : Proc unit :=
  λ w, match refuses Open (segs t) with
       | Some code => (Throw (SystemError code "open" t), w)
       | None =>
           match write_file (segs t) content (disk w) with
           | inr d => (Ret tt, World d (console w))
           | inl code => (Throw (SystemError code "open" t), w)
           end
       end.

(** [fs.rmSync(t, { recursive: true, force: true })]: a missing target is
    not an error; the root cannot be removed, the attempt fails at once
    and deletes nothing; a regular file named with a trailing separator
    is refused. *)
Definition rmSync (t : path) : Proc unit :=
  λ w, match segs t with
       | [] => (Throw (SystemError EBUSY "rmdir" t), w)
       | p => match lookup_path p (disk w) with
              | Some (File _) =>
                  if trailing t then (Throw (SystemError ENOTDIR "rm" t), w)
                  else (Ret tt, World (remove_tree p (disk w)) (console w))
              | _ => (Ret tt, World (remove_tree p (disk w)) (console w))
              end
       end.

(** ** Templates *)

Definition pageContent (componentName : string) : string :=
  "export default function " +:+ capitalized componentName +:+ "Page() {
  return (
    <div>
      <h1>" +:+ capitalized componentName +:+ " Page</h1>
      <p>This is the " +:+ componentName +:+ " page</p>
    </div>
  );
}
".

Definition layoutContent (componentName : string) : string :=
  "export default function " +:+ capitalized componentName +:+ "Layout({
  children,
}: {
  children: React.ReactNode;
}) {
  return (
    <section>
      {/* " +:+ componentName +:+ " layout */}
      {children}
    </section>
  );
}
".

Definition expoIndexContent (componentName : string) : string :=
  "import React from 'react';
import { View, Text, StyleSheet } from 'react-native';

export default function " +:+ componentName +:+ "Screen() {
  return (
    <View style={styles.container}>
      <Text style={styles.title}>" +:+ componentName +:+ " Screen</Text>
    </View>
  );
}

const styles = StyleSheet.create({
  container: {
    flex: 1,
    alignItems: 'center',
    justifyContent: 'center',
  },
  title: {
    fontSize: 20,
    fontWeight: 'bold',
    marginBottom: 16,
  },
});
".

Definition expoStylesContent : string :=
  "import { StyleSheet } from 'react-native';

export default StyleSheet.create({
  container: {
    flex: 1,
    padding: 16,
    backgroundColor: '#f0f0f0',
  },
});
".

Definition reactNativeIndexContent (componentName : string) : string :=
  "import React from 'react';
import { View, Text } from 'react-native';
import styles from './styles';

const " +:+ componentName +:+ " = () => {
  return (
    <View style={styles.container}>
      <Text style={styles.text}>" +:+ componentName +:+ " Component</Text>
    </View>
  );
};

export default " +:+ componentName +:+ ";
".

Definition reactNativeStylesContent : string :=
  "import { StyleSheet } from 'react-native';

export default StyleSheet.create({
  container: {
    padding: 16,
    backgroundColor: '#f5f5f5',
    borderRadius: 8,
  },
  text: {
    fontSize: 16,
    color: '#333',
  },
});
".

(** The usage block of [displayHelp]; the chalk colouring of its four
    headings is not recorded. *)
Definition helpText : string :=
  "
USAGE:
  drt <platform> <action> <name>

PLATFORMS:
  expo         - For Expo projects
  next         - For Next.js projects
  react-native - For React Native projects

ACTIONS:
  add    - Add a new component/page
  remove - Remove an existing component/page

EXAMPLES:
  drt expo add login    - Create a login component for Expo
  drt next remove about - Remove about page from Next.js project
  ".

(** ** Platform handlers *)

Section Handlers.
(** The operating system under the process. *)
Context {os : OS}.

(** The working directory of the process, as the segments of its
    absolute path. *)
Variable cwd : list string.

(** Create components for Next.js *)
Definition createNextComponents (componentName : string) : Proc unit :=
  let basePath := path_join (process_cwd cwd) componentName in
  let* found := existsSync basePath in
  if found then
    throw (Error ("Component/page " +:+ dq +:+ componentName +:+ dq +:+ " already exists"))
  else
    mkdirSync basePath >>
    let pagePath := path_join basePath "page.tsx" in
    writeFileSync pagePath (pageContent componentName) >>
    let layoutPath := path_join basePath "layout.tsx" in
    writeFileSync layoutPath (layoutContent componentName).

(** Remove components for Next.js *)
Definition removeNextComponents (componentName : string) : Proc unit :=
  let basePath := path_join (process_cwd cwd) componentName in
  let* found := existsSync basePath in
  if negb found then
    throw (Error ("Component/page " +:+ dq +:+ componentName +:+ dq +:+ " doesn't exist"))
  else rmSync basePath.

(** Create components for Expo *)
Definition createExpoComponents (componentName : string) : Proc unit :=
  let componentDir := path_join (process_cwd cwd) componentName in
  let* found := existsSync componentDir in
  if found then
    throw (Error ("Component " +:+ dq +:+ componentName +:+ dq +:+ " already exists"))
  else
    mkdirSync componentDir >>
    let indexPath := path_join componentDir "index.tsx" in
    writeFileSync indexPath (expoIndexContent componentName) >>
    let stylesPath := path_join componentDir "styles.js" in
    writeFileSync stylesPath expoStylesContent.

(** Remove components for Expo *)
Definition removeExpoComponents (componentName : string) : Proc unit :=
  let componentDir := path_join (process_cwd cwd) componentName in
  let* found := existsSync componentDir in
  if negb found then
    throw (Error ("Component " +:+ dq +:+ componentName +:+ dq +:+ " doesn't exist"))
  else rmSync componentDir.

(** Create components for React Native *)
Definition createReactNativeComponents (componentName : string) : Proc unit :=
  let componentDir := path_join (process_cwd cwd) componentName in
  let* found := existsSync componentDir in
  if found then
    throw (Error ("Component " +:+ dq +:+ componentName +:+ dq +:+ " already exists"))
  else
    mkdirSync componentDir >>
    let indexPath := path_join componentDir "index.jsx" in
    writeFileSync indexPath (reactNativeIndexContent componentName) >>
    let stylesPath := path_join componentDir "styles.js" in
    writeFileSync stylesPath reactNativeStylesContent.

(** Remove components for React Native *)
Definition removeReactNativeComponents (componentName : string) : Proc unit :=
  let componentDir := path_join (process_cwd cwd) componentName in
  let* found := existsSync componentDir in
  if negb found then
    throw (Error ("Component " +:+ dq +:+ componentName +:+ dq +:+ " doesn't exist"))
  else rmSync componentDir.

(** Add a component/page based on platform.  The [if]/[else if] chain
    has no final [else]: an unknown platform falls through to the
    success message. *)
Definition addComponent (platform componentName : string) : Proc unit :=
  try_catch
    ((if String.eqb platform "next" then createNextComponents componentName
      else if String.eqb platform "expo" then createExpoComponents componentName
      else if String.eqb platform "react-native" then createReactNativeComponents componentName
      else ret tt) >>
     console_log Green
       ("✓ Successfully created " +:+ componentName +:+ " for " +:+ platform +:+ "!"))
    (λ error,
       console_log Red ("✗ Error creating component: " +:+ message error) >>
       process_exit 1).

(** Remove a component/page based on platform *)
Definition removeComponent (platform componentName : string) : Proc unit :=
  try_catch
    ((if String.eqb platform "next" then removeNextComponents componentName
      else if String.eqb platform "expo" then removeExpoComponents componentName
      else if String.eqb platform "react-native" then removeReactNativeComponents componentName
      else ret tt) >>
     console_log Green
       ("✓ Successfully removed " +:+ componentName +:+ " from " +:+ platform +:+ "!"))
    (λ error,
       console_log Red ("✗ Error removing component: " +:+ message error) >>
       process_exit 1).

(** ** Banner, help and the interactive prompt *)

Definition welcome : Proc unit :=
  emit (Banner "DRUTA CLI") >>
  console_log Blue "A CLI tool for React Native, Expo, and Next.js components
".

(** [sleep(ms)] only delays; time is not part of the world. *)
Definition sleep (ms : nat) : Proc unit := ret tt.

Definition displayHelp : Proc unit := console_log Plain helpText.

(** What a [validate] callback returns: [true] or a message. *)
Inductive validation := VTrue | VMessage (msg : string).

(** The person at the terminal: the entry highlighted in each list
    prompt when Enter is pressed, and the lines typed at the input
    prompt, in order. *)
Record user := User {
  platform_choice : nat;
  action_choice : nat;
  typed : list string
}.

(** An inquirer [list] question: the answer is one of the choices. *)
Definition list_prompt (text : string) (choices : list string) (pick : nat) : Proc string :=
  emit (Question text) >>
  ret (nth (pick mod length choices) choices "").

(** An inquirer [input] question: a line is the answer when [validate]
    returns [true]; otherwise the message is shown and the next line is
    read.  With no line left the prompt keeps waiting. *)
Fixpoint read_valid (validate : string → validation) (lines : list string) : Proc string :=
  match lines with
  | [] => λ w, (Blocked, w)
  | input :: rest =>
      match validate input with
      | VTrue => ret input
      | VMessage msg => emit (Invalid msg) >> read_valid validate rest
      end
  end.

Definition input_prompt (text : string) (validate : string → validation)
    (lines : list string) : Proc string :=
  emit (Question text) >> read_valid validate lines.

(** The [validate] callback of the name question. *)
Definition validateName (input : string) : validation :=
  if negb (String.eqb (trim input) "") then VTrue else VMessage "Name cannot be empty".

(** Interactive CLI mode *)
Definition interactiveCLI (u : user) : Proc unit :=
  let* platform :=
    list_prompt "Select platform:" ["next"; "expo"; "react-native"] (platform_choice u) in
  let* action :=
    list_prompt "What do you want to do?" ["add"; "remove"] (action_choice u) in
  let* componentName :=
    input_prompt "Enter component/page name:" validateName (typed u) in
  if String.eqb action "add" then addComponent platform componentName
  else if String.eqb action "remove" then removeComponent platform componentName
  else ret tt.

(** ** The dispatcher *)

(** Main arguments parser; [args] is [process.argv.slice(2)].  The three
    cases of the match are [args.length === 0], [args.length < 3] and
    the destructuring [[platform, action, componentName] = args]. *)
Definition parseArguments (u : user) (args : list string) : Proc unit :=
  match args with
  | [] => welcome >> sleep 500 >> interactiveCLI u
  | [_] | [_; _] =>
      console_log Red "Not enough arguments provided" >>
      displayHelp >>
      process_exit 1
  | platform :: action :: componentName :: _ =>
      if negb (includes ["expo"; "next"; "react-native"] platform) then
        console_log Red ("Invalid platform: " +:+ platform) >>
        displayHelp >>
        process_exit 1
      else if negb (includes ["add"; "remove"] action) then
        console_log Red ("Invalid action: " +:+ action) >>
        displayHelp >>
        process_exit 1
      else if String.eqb action "add" then addComponent platform componentName
      else if String.eqb action "remove" then removeComponent platform componentName
      else ret tt
  end.

(** Run the CLI: [parseArguments().catch(...)]. *)
Definition main (u : user) (args : list string) : Proc unit :=
  try_catch (parseArguments u args)
    (λ error,
       console_error Red ("Error: " +:+ message error) >>
       process_exit 1).

(** The exit status of a finished run; a blocked run has none. *)
Definition exit_code (r : result unit) : option nat :=
  match r with
  | Ret _ => Some 0
  | Exit code => Some code
  | Throw _ => Some 1
  | Blocked => None
  end.

End Handlers.

(** A disk and an empty console. *)
Definition boot (d : node) : world := World d [].

(** ** Vocabulary of the statements *)

Definition valid_platform (platform : string) : Prop :=
  platform = "next" ∨ platform = "expo" ∨ platform = "react-native".

Definition valid_action (action : string) : Prop :=
  action = "add" ∨ action = "remove".

(** How the handlers of a platform call the component in their errors. *)
Definition component_label (platform : string) : string :=
  if String.eqb platform "next" then "Component/page " else "Component ".

(** The target of a handler: [path.join(process.cwd(), componentName)]. *)
Definition target (cwd : list string) (componentName : string) : path :=
  path_join (process_cwd cwd) componentName.

(** Whatever exists on the way to [p], [p] included, is a directory. *)
Definition ancestors_are_dirs (p : list string) (n : node) : Prop :=
  ∀ q c, q `prefix_of` p → lookup_path q n = Some c → is_dir c = true.

(** A string made of white-space characters only (the empty string
    included). *)
Inductive whitespace_only : string → Prop :=
  | ws_empty : whitespace_only ""
  | ws_more s cp rest :
      decode_first s = Some (cp, rest) →
      is_white_space cp = true →
      whitespace_only rest →
      whitespace_only s.

(** The operating system lets [add] through: it refuses to make none of
    the directories that are missing on the way to [p], [p] included, and
    to open none of the files named in [files] below [p]. *)
Definition creation_allowed {os : OS} (p : list string) (files : gmap string node)
    (n : node) : Prop :=
  (∀ q, q `prefix_of` p → lookup_path q n = None → refuses Mkdir q = None) ∧
  (∀ f, f ∈ dom files → refuses Open (p ++ [f]) = None).

(** Everything of [n] is still in [n']: a regular file with its content, a
    directory as a directory. *)
Definition kept_in (n n' : node) : Prop :=
  ∀ q c, lookup_path q n = Some c →
    ∃ c', lookup_path q n' = Some c' ∧
          is_dir c' = is_dir c ∧ (is_dir c = false → c' = c).

(** The tree in which the node at [p] is [c], directories missing on the
    way being created; used to describe what the handlers leave behind. *)
Fixpoint plant (p : list string) (c : node) (n : node) : node :=
  match p with
  | [] => c
  | s :: p' =>
      match n with
      | File _ => n
      | Dir m => Dir (<[s := plant p' c (default (Dir ∅) (m !! s))]> m)
      end
  end.

(** The two files of a Next.js page, of an Expo screen and of a React
    Native component. *)
Definition nextFiles (componentName : string) : gmap string node :=
  <["layout.tsx" := File (layoutContent componentName)]>
    (<["page.tsx" := File (pageContent componentName)]> ∅).

Definition expoFiles (componentName : string) : gmap string node :=
  <["styles.js" := File expoStylesContent]>
    (<["index.tsx" := File (expoIndexContent componentName)]> ∅).

Definition reactNativeFiles (componentName : string) : gmap string node :=
  <["styles.js" := File reactNativeStylesContent]>
    (<["index.jsx" := File (reactNativeIndexContent componentName)]> ∅).

(** What [add] puts into the new directory, by platform. *)
Definition scaffold_files (platform componentName : string) : gmap string node :=
  if String.eqb platform "next" then nextFiles componentName
  else if String.eqb platform "expo" then expoFiles componentName
  else reactNativeFiles componentName.

(** The file that a [create] handler writes first, and the one it writes
    second. *)
Definition first_file (platform : string) : string :=
  if String.eqb platform "next" then "page.tsx"
  else if String.eqb platform "expo" then "index.tsx"
  else "index.jsx".

Definition second_file (platform : string) : string :=
  if String.eqb platform "next" then "layout.tsx" else "styles.js".

(** An ordinary name: one path segment, neither empty nor [.] nor [..]. *)
Definition simple_name (s : string) : Prop :=
  s ≠ "" ∧ s ≠ "." ∧ s ≠ ".." ∧ "/"%char ∉ chars s.

(** ** Sample worlds *)

(** An operating system whose only refusal is that of a name longer than
    255 bytes, as on the usual Linux file systems. *)
Definition name_too_long (p : list string) : bool :=
  existsb (λ s, 255 <? String.length s)%nat p.

Definition posix_limits : OS :=
  {| refuses := λ _ p, if name_too_long p then Some ENAMETOOLONG else None |}.

(** An operating system on which no file named [f] can be opened, the
    call failing with [code], and nothing else is refused: a disk that is
    full by the time [f] is to be written, or a rule of access on that
    name. *)
Definition refusing_open (f : string) (code : errno) : OS :=
  {| refuses := λ call p,
       match call with
       | Open => if String.eqb (List.last p "") f then Some code else None
       | Mkdir => None
       end |}.

(** A name of 256 bytes. *)
Definition long_name : string := string_of_list_ascii (replicate 256 "a"%char).

(** A project directory [/app] holding a page [dashboard], a regular file
    [notes.txt] and nothing else. *)
Definition sample_disk : node :=
  Dir {[ "app" := Dir {[ "dashboard" := Dir {[ "page.tsx" := File "old" ]};
                         "notes.txt" := File "todo" ]} ]}.

Definition sample_cwd : list string := ["app"].

(** Someone who picks the second platform and the first action, presses
    Enter on an empty line, then on a blank one, then types a name. *)
Definition sample_user : user := User 1 0 [""; "  "; "login"].

(** Runs the monadic plumbing and flattens the console. *)
Ltac run_proc :=
  repeat progress
    (cbn [negb disk console fst snd];
     unfold displayHelp, console_log, console_error, emit, bind, ret, throw,
       process_exit, try_catch);
  rewrite <- ?app_assoc; cbn [app].

(** * Properties *)

(** ** Paths *)

Example path_join_examples :
  path_join (process_cwd ["app"]) "dashboard" = Path ["app"; "dashboard"] false ∧
  path_join (process_cwd ["app"]) "admin/users" = Path ["app"; "admin"; "users"] false ∧
  path_join (process_cwd ["app"]) "a//b/./c/" = Path ["app"; "a"; "b"; "c"] true ∧
  path_join (process_cwd ["srv"; "app"]) "../x" = Path ["srv"; "x"] false ∧
  path_join (process_cwd ["app"]) "../../.." = Path [] false ∧
  path_join (process_cwd ["app"]) "." = Path ["app"] false ∧
  path_join (process_cwd ["app"]) "" = Path ["app"] false ∧
  path_to_string (path_join (process_cwd ["srv"; "app"]) "pages/home/") = "/srv/app/pages/home/".
Proof. by repeat split. Qed.

(** ** Strings *)

Lemma includes_platforms platform :
  includes ["expo"; "next"; "react-native"] platform = true ↔ valid_platform platform.
Proof.
  unfold includes, valid_platform. simpl.
  rewrite !orb_true_iff, !String.eqb_eq. intuition discriminate.
Qed.

Lemma includes_actions action :
  includes ["add"; "remove"] action = true ↔ valid_action action.
Proof.
  unfold includes, valid_action. simpl.
  rewrite !orb_true_iff, !String.eqb_eq. intuition discriminate.
Qed.

Lemma decode_first_shorter s cp rest :
  decode_first s = Some (cp, rest) → (String.length rest < String.length s)%nat.
Proof.
  unfold decode_first. intros H.
  destruct s as [|c0 [|c1 [|c2 [|c3 s4]]]]; repeat case_match; simplify_eq; simpl; lia.
Qed.

Lemma whitespace_only_step s cp rest :
  decode_first s = Some (cp, rest) → is_white_space cp = true →
  whitespace_only s ↔ whitespace_only rest.
Proof.
  intros Hd Hw. split; intros H.
  - inversion H as [E | s' cp' rest' Hd' _ Hrest]; subst.
    + discriminate Hd.
    + rewrite Hd in Hd'. by simplify_eq.
  - by apply (ws_more _ cp rest).
Qed.

Lemma whitespace_only_stuck s :
  s ≠ "" →
  (∀ cp rest, decode_first s = Some (cp, rest) → is_white_space cp = false) →
  ¬ whitespace_only s.
Proof.
  intros Hne Hhead H. inversion H as [E | s' cp rest Hd Hw _]; subst; [done |].
  rewrite (Hhead _ _ Hd) in Hw. discriminate Hw.
Qed.

(** Stripping leaves the empty string or something that does not begin
    with white space. *)
Lemma trimStart_from_head k s :
  (String.length s ≤ k)%nat →
  trimStart_from k s = "" ∨
  (∀ cp rest, decode_first (trimStart_from k s) = Some (cp, rest) →
              is_white_space cp = false).
Proof.
  revert s. induction k as [|k IH]; intros s Hlen.
  - left. destruct s; [done | simpl in Hlen; lia].
  - simpl. destruct (decode_first s) as [[cp rest]|] eqn:Hd.
    + destruct (is_white_space cp) eqn:Hw.
      * apply IH. apply decode_first_shorter in Hd. lia.
      * right. intros cp' rest' Hd'. rewrite Hd in Hd'. by simplify_eq.
    + right. intros cp' rest' Hd'. rewrite Hd in Hd'. discriminate Hd'.
Qed.

Lemma trimStart_from_empty k s :
  (String.length s ≤ k)%nat →
  trimStart_from k s = "" ↔ whitespace_only s.
Proof.
  revert s. induction k as [|k IH]; intros s Hlen.
  - destruct s; [| simpl in Hlen; lia]. simpl. split; [constructor | done].
  - simpl. destruct (decode_first s) as [[cp rest]|] eqn:Hd.
    + destruct (is_white_space cp) eqn:Hw.
      * rewrite (whitespace_only_step _ _ _ Hd Hw). apply IH.
        apply decode_first_shorter in Hd. lia.
      * assert (s ≠ "") as Hne by (by intros ->).
        split; [done |]. intros H. exfalso. revert H.
        apply whitespace_only_stuck; [done |].
        intros cp' rest' Hd'. rewrite Hd in Hd'. by simplify_eq.
    + destruct s as [|c s]; [split; [constructor | done] |].
      split; [done |]. intros H. exfalso. revert H.
      apply whitespace_only_stuck; [done |].
      intros cp' rest' Hd'. rewrite Hd in Hd'. discriminate Hd'.
Qed.

Lemma trimStart_empty s : trimStart s = "" ↔ whitespace_only s.
Proof. by apply trimStart_from_empty. Qed.

(** [trim] leaves nothing exactly of the strings made of white space. *)
Lemma trim_empty s : trim s = "" ↔ whitespace_only s.
Proof.
  rewrite <- trimStart_empty. unfold trim.
  destruct (trimStart_from_head (String.length s) s (le_n _)) as [E | Hhead];
    fold (trimStart s) in *.
  - by rewrite E.
  - destruct (trimStart s) as [|c x] eqn:E; [done |].
    cbn [trimEnd]. destruct (String.eqb_spec (trimStart (String c x)) "") as [E' | _];
      [| done].
    exfalso. apply trimStart_empty in E'. revert E'.
    by apply whitespace_only_stuck.
Qed.

(** ** The directory tree *)

Lemma lookup_path_empty_dir p :
  lookup_path p (Dir ∅) = match p with [] => Some (Dir ∅) | _ => None end.
Proof. destruct p as [|s p]; simpl; [done |]. by rewrite lookup_empty. Qed.

Lemma lookup_path_app q r n :
  lookup_path (q ++ r) n = lookup_path q n ≫= lookup_path r.
Proof.
  revert n. induction q as [|a q IH]; intros n; simpl; [done |].
  destruct n as [|m]; [done |]. destruct (m !! a); [apply IH | done].
Qed.

Lemma ancestors_root p n : ancestors_are_dirs p n → ∃ m, n = Dir m.
Proof.
  intros H. specialize (H [] n (prefix_nil p) eq_refl).
  destruct n; [discriminate | eauto].
Qed.

Lemma ancestors_cons a p m :
  ancestors_are_dirs (a :: p) (Dir m) →
  ancestors_are_dirs p (default (Dir ∅) (m !! a)).
Proof.
  intros H q c Hq Hc. destruct (m !! a) as [x|] eqn:Ha; simpl in Hc.
  - apply (H (a :: q) c); [by apply prefix_cons |]. simpl. by rewrite Ha.
  - rewrite lookup_path_empty_dir in Hc. destruct q; [| done].
    by inversion Hc.
Qed.

(** On a path free of regular files and with nothing refused, [mkdir -p]
    plants the directory that is already there, or an empty one. *)
Lemma mkdirp_plant deny p n :
  ancestors_are_dirs p n →
  (∀ q, q `prefix_of` p → lookup_path q n = None → deny q = None) →
  mkdirp deny p n = (None, plant p (default (Dir ∅) (lookup_path p n)) n).
Proof.
  revert deny n. induction p as [|a p IH]; intros deny n Hanc Hallow.
  - destruct (ancestors_root _ _ Hanc) as [m ->]. done.
  - destruct (ancestors_root _ _ Hanc) as [m ->]. cbn [mkdirp plant lookup_path].
    pose proof (ancestors_cons _ _ _ Hanc) as Hanc'.
    destruct (m !! a) as [c|] eqn:Ha; cbn [default] in *.
    + rewrite (IH (λ q, deny (a :: q)) c Hanc'); [done |].
      intros q Hq Hl. apply Hallow; [by apply prefix_cons |]. simpl. by rewrite Ha.
    + rewrite (Hallow [a]); [| apply prefix_cons, prefix_nil | simpl; by rewrite Ha].
      rewrite (IH (λ q, deny (a :: q)) (Dir ∅) Hanc').
      * rewrite lookup_path_empty_dir. by destruct p.
      * intros q Hq Hl. apply Hallow; [by apply prefix_cons |]. simpl. by rewrite Ha.
Qed.

(** [mkdir -p] ends without error only on such a path. *)
Lemma mkdirp_done deny p n d :
  mkdirp deny p n = (None, d) →
  ancestors_are_dirs p n ∧
  (∀ q, q `prefix_of` p → lookup_path q n = None → deny q = None).
Proof.
  revert deny n d. induction p as [|a p IH]; intros deny n d H.
  - destruct n as [|m]; [done |]. split.
    + intros q c Hq Hc. apply prefix_nil_inv in Hq as ->. simpl in Hc. by simplify_eq.
    + intros q Hq Hc. apply prefix_nil_inv in Hq as ->. done.
  - destruct n as [|m]; [done |]. cbn [mkdirp] in H.
    destruct (m !! a) as [c|] eqn:Ha.
    + destruct (mkdirp (λ q, deny (a :: q)) p c) as [r c'] eqn:E. simplify_eq.
      destruct (IH _ _ _ E) as [Hanc Hallow]. split.
      * intros q c0 Hq Hc. destruct q as [|b q]; simpl in Hc; [by simplify_eq |].
        pose proof (prefix_cons_inv_1 _ _ _ _ Hq) as ->. apply prefix_cons_inv_2 in Hq.
        rewrite Ha in Hc. by apply (Hanc q c0).
      * intros q Hq Hc. destruct q as [|b q]; [done |].
        pose proof (prefix_cons_inv_1 _ _ _ _ Hq) as ->. apply prefix_cons_inv_2 in Hq.
        simpl in Hc. rewrite Ha in Hc. by apply Hallow.
    + destruct (deny [a]) as [e|] eqn:Hdeny; [done |].
      destruct (mkdirp (λ q, deny (a :: q)) p (Dir ∅)) as [r c'] eqn:E. simplify_eq.
      destruct (IH _ _ _ E) as [Hanc Hallow]. split.
      * intros q c0 Hq Hc. destruct q as [|b q]; simpl in Hc; [by simplify_eq |].
        pose proof (prefix_cons_inv_1 _ _ _ _ Hq) as ->. by rewrite Ha in Hc.
      * intros q Hq Hc. destruct q as [|b q]; [done |].
        pose proof (prefix_cons_inv_1 _ _ _ _ Hq) as ->. apply prefix_cons_inv_2 in Hq.
        destruct q as [|b q]; [done |]. apply Hallow; [done |].
        by rewrite lookup_path_empty_dir.
Qed.

Lemma kept_in_refl n : kept_in n n.
Proof. intros q c Hq. exists c. by rewrite Hq. Qed.

Lemma kept_in_trans n1 n2 n3 : kept_in n1 n2 → kept_in n2 n3 → kept_in n1 n3.
Proof.
  intros H12 H23 q c Hq. destruct (H12 q c Hq) as (c2 & Hq2 & Hd2 & Hf2).
  destruct (H23 q c2 Hq2) as (c3 & Hq3 & Hd3 & Hf3).
  exists c3. split; [done |]. split; [congruence |].
  intros Hc. rewrite Hf3; [by apply Hf2 | congruence].
Qed.

Lemma kept_in_entry s m c' :
  (∀ c, m !! s = Some c → kept_in c c') →
  kept_in (Dir m) (Dir (<[s := c']> m)).
Proof.
  intros H q c Hq. destruct q as [|b q].
  - simpl in Hq. simplify_eq. eexists. split; [reflexivity |]. by split.
  - simpl in Hq. destruct (m !! b) as [y|] eqn:Hb; [| done].
    cbn [lookup_path]. destruct (decide (s = b)) as [-> | Hne].
    + rewrite lookup_insert_eq. by apply (H y Hb).
    + rewrite lookup_insert_ne, Hb by done. exists c. by rewrite Hq.
Qed.

(** Whatever [mkdir -p] ends with, everything is still there. *)
Lemma mkdirp_keeps deny p n r d : mkdirp deny p n = (r, d) → kept_in n d.
Proof.
  revert deny n r d. induction p as [|a p IH]; intros deny n r d H.
  - destruct n; simpl in H; simplify_eq; apply kept_in_refl.
  - destruct n as [|m]; [simpl in H; simplify_eq; apply kept_in_refl |].
    cbn [mkdirp] in H. destruct (m !! a) as [c|] eqn:Ha.
    + destruct (mkdirp (λ q, deny (a :: q)) p c) as [r' c'] eqn:E. simplify_eq.
      apply kept_in_entry. intros c0 Hc0. rewrite Ha in Hc0. simplify_eq.
      by apply (IH _ _ _ _ E).
    + destruct (deny [a]) as [e|]; [simplify_eq; apply kept_in_refl |].
      destruct (mkdirp (λ q, deny (a :: q)) p (Dir ∅)) as [r' c'] eqn:E. simplify_eq.
      apply kept_in_entry. intros c0 Hc0. by rewrite Ha in Hc0.
Qed.

Lemma lookup_plant p c n :
  ancestors_are_dirs p n → lookup_path p (plant p c n) = Some c.
Proof.
  revert n. induction p as [|a p IH]; intros n H; [done |].
  destruct (ancestors_root _ _ H) as [m ->]. simpl.
  rewrite lookup_insert_eq. apply IH. by apply ancestors_cons.
Qed.

Lemma plant_plant p c c' n : plant p c (plant p c' n) = plant p c n.
Proof.
  revert n. induction p as [|a p IH]; intros n; [done |].
  destruct n as [|m]; simpl; [done |].
  rewrite lookup_insert_eq, insert_insert_eq. simpl. by rewrite IH.
Qed.

Lemma write_file_cons a p content m :
  p ≠ [] →
  write_file (a :: p) content (Dir m)
  = match m !! a with
    | Some c => match write_file p content c with
                | inr c' => inr (Dir (<[a := c']> m))
                | inl e => inl e
                end
    | None => inl ENOENT
    end.
Proof. by destruct p. Qed.


Lemma snoc_not_nil {A} (l : list A) (x : A) : (l ++ [x])%list ≠ [].
Proof. by destruct l. Qed.

(** Writing a file into a planted directory. *)
Lemma write_file_plant p f content m n :
  ancestors_are_dirs p n →
  (∀ m', m !! f ≠ Some (Dir m')) →
  write_file (p ++ [f]) content (plant p (Dir m) n)
  = inr (plant p (Dir (<[f := File content]> m)) n).
Proof.
  intros H Hf. revert n H. induction p as [|a p IH]; intros n H.
  - simpl. destruct (m !! f) as [[|m']|] eqn:E; try done. by destruct (Hf m').
  - destruct (ancestors_root _ _ H) as [m0 ->].
    change ((a :: p) ++ [f])%list with (a :: (p ++ [f]))%list.
    cbn [plant]. rewrite write_file_cons by apply snoc_not_nil.
    rewrite lookup_insert_eq, (IH _ (ancestors_cons _ _ _ H)).
    by rewrite insert_insert_eq.
Qed.



Lemma ancestors_of_parent q s m n :
  lookup_path q n = Some (Dir m) → m !! s = None →
  ancestors_are_dirs (q ++ [s]) n ∧ lookup_path (q ++ [s]) n = None.
Proof.
  intros Hq Hs. split.
  - revert n Hq. induction q as [|a q IH]; intros n Hq r c Hr Hc.
    + simpl in Hq. inversion Hq; subst.
      destruct r as [|b r]; simpl in Hc; [by inversion Hc |].
      apply prefix_cons_inv_1 in Hr as ->. by rewrite Hs in Hc.
    + simpl in Hq. destruct n as [|m0]; [done |].
      destruct (m0 !! a) as [x|] eqn:Ha; [| done].
      destruct r as [|b r]; simpl in Hc; [by inversion Hc |].
      change ((a :: q) ++ [s])%list with (a :: (q ++ [s]))%list in Hr.
      pose proof (prefix_cons_inv_1 _ _ _ _ Hr) as ->.
      apply prefix_cons_inv_2 in Hr. rewrite Ha in Hc.
      by apply (IH x Hq r c).
  - rewrite lookup_path_app, Hq. simpl. by rewrite Hs.
Qed.

(** ** The handlers *)

Lemma fs_exists_absent t d : lookup_path (segs t) d = None → fs_exists t d = false.
Proof. unfold fs_exists. by intros ->. Qed.

Lemma fs_exists_dir t d m : lookup_path (segs t) d = Some (Dir m) → fs_exists t d = true.
Proof. unfold fs_exists. by intros ->. Qed.

(** The three file-system steps of every [create] handler. *)
Lemma scaffold_steps {os : OS} t f1 c1 f2 c2 w :
  segs (path_join t f1) = (segs t ++ [f1])%list →
  segs (path_join t f2) = (segs t ++ [f2])%list →
  lookup_path (segs t) (disk w) = None →
  ancestors_are_dirs (segs t) (disk w) →
  creation_allowed (segs t) (<[f2 := File c2]> (<[f1 := File c1]> ∅)) (disk w) →
  (mkdirSync t >>
   writeFileSync (path_join t f1) c1 >>
   writeFileSync (path_join t f2) c2) w
  = (Ret tt,
     World (plant (segs t) (Dir (<[f2 := File c2]> (<[f1 := File c1]> ∅))) (disk w))
           (console w)).
Proof.
  intros E1 E2 Habs Hanc [Hmk Hopen]. unfold bind, mkdirSync, writeFileSync.
  rewrite (mkdirp_plant _ _ _ Hanc Hmk), Habs. cbn [default disk console].
  rewrite E1, (Hopen f1), (write_file_plant _ _ _ _ _ Hanc).
  2:{ intros m'. by rewrite lookup_empty. }
  2:{ rewrite !dom_insert. set_solver. }
  cbn [disk console]. rewrite E2, (Hopen f2), (write_file_plant _ _ _ _ _ Hanc); [done | |].
  - intros m'. rewrite lookup_insert. case_decide; [done |]. by rewrite lookup_empty.
  - rewrite !dom_insert. set_solver.
Qed.

Lemma already_exists_thrown {os : OS} cwd platform name w :
  valid_platform platform →
  fs_exists (target cwd name) (disk w) = true →
  (if String.eqb platform "next" then createNextComponents cwd name
   else if String.eqb platform "expo" then createExpoComponents cwd name
   else if String.eqb platform "react-native" then createReactNativeComponents cwd name
   else ret tt) w
  = (Throw (Error (component_label platform +:+ dq +:+ name +:+ dq +:+ " already exists")), w).
Proof.
  unfold target. intros [-> | [-> | ->]] H; cbn [String.eqb Ascii.eqb Bool.eqb];
    unfold createNextComponents, createExpoComponents, createReactNativeComponents,
      bind, existsSync; by rewrite H.
Qed.

Lemma created {os : OS} cwd platform name w :
  valid_platform platform →
  lookup_path (segs (target cwd name)) (disk w) = None →
  ancestors_are_dirs (segs (target cwd name)) (disk w) →
  creation_allowed (segs (target cwd name)) (scaffold_files platform name) (disk w) →
  (if String.eqb platform "next" then createNextComponents cwd name
   else if String.eqb platform "expo" then createExpoComponents cwd name
   else if String.eqb platform "react-native" then createReactNativeComponents cwd name
   else ret tt) w
  = (Ret tt,
     World (plant (segs (target cwd name)) (Dir (scaffold_files platform name)) (disk w))
           (console w)).
Proof.
  unfold target. intros [-> | [-> | ->]] Habs Hanc Hallow;
    cbn [String.eqb Ascii.eqb Bool.eqb];
    unfold createNextComponents, createExpoComponents, createReactNativeComponents;
    unfold bind at 1; unfold existsSync;
    rewrite (fs_exists_absent _ _ Habs);
    by apply scaffold_steps.
Qed.

Lemma doesnt_exist_thrown cwd platform name w :
  valid_platform platform →
  fs_exists (target cwd name) (disk w) = false →
  (if String.eqb platform "next" then removeNextComponents cwd name
   else if String.eqb platform "expo" then removeExpoComponents cwd name
   else if String.eqb platform "react-native" then removeReactNativeComponents cwd name
   else ret tt) w
  = (Throw (Error (component_label platform +:+ dq +:+ name +:+ dq +:+ " doesn't exist")), w).
Proof.
  unfold target. intros [-> | [-> | ->]] H; cbn [String.eqb Ascii.eqb Bool.eqb];
    unfold removeNextComponents, removeExpoComponents, removeReactNativeComponents,
      bind, existsSync; by rewrite H.
Qed.

Lemma removed cwd platform name w :
  valid_platform platform →
  fs_exists (target cwd name) (disk w) = true →
  (if String.eqb platform "next" then removeNextComponents cwd name
   else if String.eqb platform "expo" then removeExpoComponents cwd name
   else if String.eqb platform "react-native" then removeReactNativeComponents cwd name
   else ret tt) w
  = rmSync (target cwd name) w.
Proof.
  unfold target. intros [-> | [-> | ->]] H; cbn [String.eqb Ascii.eqb Bool.eqb];
    unfold removeNextComponents, removeExpoComponents, removeReactNativeComponents,
      bind, existsSync; by rewrite H.
Qed.


(** ** The dispatcher *)

Lemma parse_add {os : OS} cwd u platform name rest :
  valid_platform platform →
  parseArguments cwd u (platform :: "add" :: name :: rest) = addComponent cwd platform name.
Proof.
  intros H. apply includes_platforms in H. unfold parseArguments. by rewrite H.
Qed.

Lemma parse_remove {os : OS} cwd u platform name rest :
  valid_platform platform →
  parseArguments cwd u (platform :: "remove" :: name :: rest)
  = removeComponent cwd platform name.
Proof.
  intros H. apply includes_platforms in H. unfold parseArguments. by rewrite H.
Qed.

Lemma invalid_platform_excluded platform :
  ¬ valid_platform platform → includes ["expo"; "next"; "react-native"] platform = false.
Proof.
  intros H. destruct (includes _ platform) eqn:E; [| done].
  by apply includes_platforms in E.
Qed.

Lemma invalid_action_excluded action :
  ¬ valid_action action → includes ["add"; "remove"] action = false.
Proof.
  intros H. destruct (includes _ action) eqn:E; [| done].
  by apply includes_actions in E.
Qed.

Lemma add_existing_target_exits {os : OS} cwd platform name w :
  valid_platform platform →
  fs_exists (target cwd name) (disk w) = true →
  addComponent cwd platform name w
  = (Exit 1,
     World (disk w)
       (console w ++
        [Log Red ("✗ Error creating component: " +:+
                  component_label platform +:+ dq +:+ name +:+ dq +:+ " already exists")])).
Proof.
  intros Hp Hex. unfold addComponent, try_catch. unfold bind at 1.
  rewrite (already_exists_thrown _ _ _ _ Hp Hex). by run_proc.
Qed.

(** C1: for each of the three platforms and every name whose target
    already exists, [add] reports the already-exists error naming the
    component and exits with status 1, and the disk is left as it was. *)
Theorem add_existing_target_fails {os : OS} cwd u platform name rest w :
  valid_platform platform →
  fs_exists (target cwd name) (disk w) = true →
  let shown :=
    console w ++
    [Log Red ("✗ Error creating component: " +:+
              component_label platform +:+ dq +:+ name +:+ dq +:+ " already exists")] in
  addComponent cwd platform name w = (Exit 1, World (disk w) shown) ∧
  main cwd u (platform :: "add" :: name :: rest) w = (Exit 1, World (disk w) shown).
Proof.
  intros Hp Hex shown. pose proof (add_existing_target_exits _ _ _ _ Hp Hex) as Hadd.
  split; [exact Hadd |]. unfold main, try_catch. by rewrite (parse_add _ _ _ _ _ Hp), Hadd.
Qed.

Lemma add_existing_target_fails_witness :
  addComponent (os := posix_limits) sample_cwd "expo" "dashboard" (boot sample_disk)
  = (Exit 1,
     World sample_disk
       [Log Red ("✗ Error creating component: Component " +:+ dq +:+ "dashboard" +:+ dq +:+
                 " already exists")]).
Proof.
  refine (proj1 (add_existing_target_fails (os := posix_limits) sample_cwd sample_user
                   "expo" "dashboard" [] (boot sample_disk) _ _)).
  - right. left. reflexivity.
  - vm_compute. reflexivity.
Defined.

(** C2: for each of the three platforms and every name whose target does
    not exist, [remove] reports the doesn't-exist error naming the
    component and exits with status 1; nothing is deleted. *)
Theorem remove_missing_target_fails {os : OS} cwd u platform name rest w :
  valid_platform platform →
  fs_exists (target cwd name) (disk w) = false →
  let shown :=
    console w ++
    [Log Red ("✗ Error removing component: " +:+
              component_label platform +:+ dq +:+ name +:+ dq +:+ " doesn't exist")] in
  removeComponent cwd platform name w = (Exit 1, World (disk w) shown) ∧
  main cwd u (platform :: "remove" :: name :: rest) w = (Exit 1, World (disk w) shown).
Proof.
  intros Hp Hex shown.
  assert (removeComponent cwd platform name w = (Exit 1, World (disk w) shown)) as Hrm.
  { unfold removeComponent, try_catch. unfold bind at 1.
    by rewrite (doesnt_exist_thrown _ _ _ _ Hp Hex). }
  split; [done |]. unfold main, try_catch. by rewrite (parse_remove _ _ _ _ _ Hp), Hrm.
Qed.

Lemma remove_missing_target_fails_witness :
  removeComponent sample_cwd "next" "about" (boot sample_disk)
  = (Exit 1,
     World sample_disk
       [Log Red ("✗ Error removing component: Component/page " +:+ dq +:+ "about" +:+ dq +:+
                 " doesn't exist")]).
Proof.
  refine (proj1 (remove_missing_target_fails (os := posix_limits) sample_cwd sample_user
                   "next" "about" [] (boot sample_disk) _ _)).
  - left. reflexivity.
  - vm_compute. reflexivity.
Defined.

(** C6: with three or more tokens, an unknown platform, or a known
    platform followed by an unknown action, makes the dispatcher print the
    error naming the offending token and the usage block and exit with
    status 1; the outcome does not depend on the disk, which is returned
    untouched. *)
Theorem invalid_token_rejected {os : OS} cwd u platform action name rest w :
  ¬ valid_platform platform ∨ (valid_platform platform ∧ ¬ valid_action action) →
  ∃ complaint,
    main cwd u (platform :: action :: name :: rest) w
    = (Exit 1, World (disk w) (console w ++ [Log Red complaint; Log Plain helpText])) ∧
    ((¬ valid_platform platform ∧ complaint = "Invalid platform: " +:+ platform) ∨
     (valid_platform platform ∧ complaint = "Invalid action: " +:+ action)).
Proof.
  intros [Hp | [Hp Ha]].
  - exists ("Invalid platform: " +:+ platform). split; [| by left].
    unfold main, try_catch, parseArguments.
    rewrite (invalid_platform_excluded _ Hp).
    run_proc. done.
  - exists ("Invalid action: " +:+ action). split; [| by right].
    unfold main, try_catch, parseArguments.
    apply includes_platforms in Hp. rewrite Hp, (invalid_action_excluded _ Ha).
    run_proc. done.
Qed.

Lemma invalid_token_rejected_witness :
  ∃ complaint,
    main (os := posix_limits) sample_cwd sample_user ["android"; "add"; "login"; "extra"]
      (boot sample_disk)
    = (Exit 1, World sample_disk [Log Red complaint; Log Plain helpText]) ∧
    ((¬ valid_platform "android" ∧ complaint = "Invalid platform: android") ∨
     (valid_platform "android" ∧ complaint = "Invalid action: add")).
Proof.
  refine (invalid_token_rejected (os := posix_limits) sample_cwd sample_user "android" "add"
            "login" ["extra"] (boot sample_disk) _).
  left. intros [H | [H | H]]; discriminate H.
Defined.

(** C7: routing looks at the number of tokens and at the first three
    only.  Without tokens the banner is shown and the interactive prompt
    runs; one or two tokens give the argument-count error, the usage block
    and exit status 1 with the disk untouched; from three tokens on, the
    tokens after the third change nothing, and the first three are used as
    platform, action and name: an unknown platform is reported first,
    then an unknown action, and otherwise [add] or [remove] runs for the
    platform on the name. *)
Theorem dispatcher_routing {os : OS} cwd u w :
  parseArguments cwd u [] w
  = interactiveCLI cwd u
      (World (disk w)
         (console w ++
          [Banner "DRUTA CLI";
           Log Blue "A CLI tool for React Native, Expo, and Next.js components
"])) ∧
  (∀ a, main cwd u [a] w
        = (Exit 1, World (disk w)
                     (console w ++ [Log Red "Not enough arguments provided";
                                    Log Plain helpText]))) ∧
  (∀ a b, main cwd u [a; b] w
          = (Exit 1, World (disk w)
                       (console w ++ [Log Red "Not enough arguments provided";
                                      Log Plain helpText]))) ∧
  (∀ platform action name rest,
     parseArguments cwd u (platform :: action :: name :: rest)
     = parseArguments cwd u [platform; action; name] ∧
     main cwd u (platform :: action :: name :: rest) w
     = main cwd u [platform; action; name] w) ∧
  (∀ platform action name rest,
     (¬ valid_platform platform →
      parseArguments cwd u (platform :: action :: name :: rest) w
      = (Exit 1,
         World (disk w)
           (console w ++ [Log Red ("Invalid platform: " +:+ platform);
                          Log Plain helpText]))) ∧
     (valid_platform platform → ¬ valid_action action →
      parseArguments cwd u (platform :: action :: name :: rest) w
      = (Exit 1,
         World (disk w)
           (console w ++ [Log Red ("Invalid action: " +:+ action);
                          Log Plain helpText]))) ∧
     (valid_platform platform → action = "add" →
      parseArguments cwd u (platform :: action :: name :: rest)
      = addComponent cwd platform name) ∧
     (valid_platform platform → action = "remove" →
      parseArguments cwd u (platform :: action :: name :: rest)
      = removeComponent cwd platform name)).
Proof.
  split; [| split; [| split; [| split]]].
  - unfold parseArguments, welcome, sleep. run_proc. done.
  - intros a. unfold main, parseArguments. run_proc. done.
  - intros a b. unfold main, parseArguments. run_proc. done.
  - intros platform action name rest. split; reflexivity.
  - intros platform action name rest. split; [| split; [| split]].
    + intros Hp. unfold parseArguments. rewrite (invalid_platform_excluded _ Hp).
      run_proc. done.
    + intros Hp Ha. unfold parseArguments. apply includes_platforms in Hp.
      rewrite Hp, (invalid_action_excluded _ Ha). run_proc. done.
    + intros Hp ->. by apply parse_add.
    + intros Hp ->. by apply parse_remove.
Qed.

Example dispatcher_uses_the_first_three :
  main (os := posix_limits) sample_cwd sample_user
    ["expo"; "remove"; "dashboard"; "add"; "next"] (boot sample_disk)
  = (Ret tt,
     World (Dir {[ "app" := Dir {[ "notes.txt" := File "todo" ]} ]})
       [Log Green "✓ Successfully removed dashboard from expo!"]).
Proof. by vm_compute. Qed.

(** ** Adding *)

Lemma add_succeeds {os : OS} cwd platform name w :
  valid_platform platform →
  lookup_path (segs (target cwd name)) (disk w) = None →
  ancestors_are_dirs (segs (target cwd name)) (disk w) →
  creation_allowed (segs (target cwd name)) (scaffold_files platform name) (disk w) →
  addComponent cwd platform name w
  = (Ret tt,
     World (plant (segs (target cwd name)) (Dir (scaffold_files platform name)) (disk w))
           (console w ++
            [Log Green ("✓ Successfully created " +:+ name +:+ " for " +:+ platform +:+ "!")])).
Proof.
  intros Hp Habs Hanc Hallow. unfold addComponent, try_catch. unfold bind at 1.
  rewrite (created _ _ _ _ Hp Habs Hanc Hallow). by run_proc.
Qed.

(** With names of ordinary length nothing is refused under
    [posix_limits]. *)
Lemma posix_limits_allow p files n :
  name_too_long p = false →
  (∀ f, f ∈ dom files → (String.length f ≤ 255)%nat) →
  creation_allowed (os := posix_limits) p files n.
Proof.
  intros Hp Hfiles. split.
  - intros q [k ->] _. cbn. unfold name_too_long in *.
    rewrite existsb_app in Hp. apply orb_false_elim in Hp as [Hq _]. by rewrite Hq.
  - intros f Hf. cbn. unfold name_too_long in *.
    rewrite existsb_app, Hp. cbn [existsb orb]. specialize (Hfiles f Hf).
    destruct (Nat.ltb_spec 255 (String.length f)); [lia | done].
Qed.

Example capitalized_examples :
  capitalized "dashboard" = "Dashboard" ∧ capitalized "userProfile" = "UserProfile" ∧
  capitalized "9lives" = "9lives" ∧ capitalized "" = "" ∧
  capitalized "éclair" = "Éclair" ∧ capitalized "ßeta" = "SSeta" ∧
  capitalized "ñandú" = "Ñandú" ∧ capitalized "ωmega" = "Ωmega" ∧
  capitalized "𐐨x" = "𐐨x".
Proof. vm_compute. by repeat split. Qed.

(** A name that begins with an ASCII letter gets that letter in upper
    case, and any other ASCII beginning is left as it is. *)
Lemma capitalized_ascii c rest :
  (N_of_ascii c < 128)%N →
  capitalized (String c rest)
  = String (if ((97 <=? N_of_ascii c) && (N_of_ascii c <=? 122))%N
            then ascii_of_N (N_of_ascii c - 32) else c) rest.
Proof.
  destruct c as [[] [] [] [] [] [] [] []]; intros H; try (vm_compute in H; discriminate H);
    reflexivity.
Qed.


Example next_dashboard_identifiers :
  (∃ rest, pageContent "dashboard" = "export default function DashboardPage() {" +:+ rest) ∧
  (∃ rest, layoutContent "dashboard" = "export default function DashboardLayout({" +:+ rest) ∧
  (∃ rest, pageContent "éclair" = "export default function ÉclairPage() {" +:+ rest) ∧
  (∃ rest, layoutContent "ßeta" = "export default function SSetaLayout({" +:+ rest).
Proof. repeat split; eexists; vm_compute; reflexivity. Qed.

Example add_next_dashboard :
  ∃ d, main (os := posix_limits) ["srv"] sample_user ["next"; "add"; "dashboard"]
         (boot (Dir {[ "srv" := Dir ∅ ]}))
       = (Ret tt, World d [Log Green "✓ Successfully created dashboard for next!"]) ∧
       lookup_path ["srv"; "dashboard"] d
       = Some (Dir {[ "page.tsx" := File (pageContent "dashboard");
                      "layout.tsx" := File (layoutContent "dashboard") ]}).
Proof. eexists. split; vm_compute; reflexivity. Qed.

(** A name of 256 bytes is refused by [mkdir]: [add] exits with status 1
    and nothing is made. *)
Example add_long_name_refused :
  ∃ complaint,
    addComponent (os := posix_limits) sample_cwd "next" long_name (boot sample_disk)
    = (Exit 1, World sample_disk [Log Red complaint]) ∧
    ∃ rest, complaint
            = "✗ Error creating component: ENAMETOOLONG: name too long, mkdir '/app/aaaa" +:+ rest.
Proof. eexists. split; [vm_compute; reflexivity |]. eexists. vm_compute. reflexivity. Qed.




(** C5, amended: for every name whose target path is absent, when no
    file-system call of the handler raises an error (there is no regular
    file among the ancestors of the target, and the operating system
    refuses neither to make a missing directory nor to open the two
    files), [add expo] succeeds and the target is then a directory holding
    exactly [index.tsx] and [styles.js]; the default export of the first
    is named by the name as given followed by [Screen] and its title is
    the name as given followed by [ Screen]; the second exports a style
    sheet with a [container] rule. *)
Theorem add_expo_scaffolds {os : OS} cwd name w :
  lookup_path (segs (target cwd name)) (disk w) = None →
  ancestors_are_dirs (segs (target cwd name)) (disk w) →
  creation_allowed (segs (target cwd name)) (expoFiles name) (disk w) →
  ∃ d files,
    addComponent cwd "expo" name w
    = (Ret tt,
       World d (console w ++ [Log Green ("✓ Successfully created " +:+ name +:+ " for expo!")])) ∧
    lookup_path (segs (target cwd name)) d = Some (Dir files) ∧
    dom files = {[ "index.tsx"; "styles.js" ]} ∧
    files !! "index.tsx" = Some (File (expoIndexContent name)) ∧
    files !! "styles.js" = Some (File expoStylesContent) ∧
    (∃ before middle rest,
       expoIndexContent name
       = before +:+ "export default function " +:+ name +:+ "Screen(" +:+
         middle +:+ "<Text style={styles.title}>" +:+ name +:+ " Screen</Text>" +:+ rest) ∧
    (∃ before rest,
       expoStylesContent
       = before +:+ "export default StyleSheet.create({
  container: {" +:+ rest).
Proof.
  intros Habs Hanc Hallow. eexists _, (expoFiles name).
  split; [| split; [| split; [| split; [| split; [| split]]]]].
  - apply (add_succeeds cwd "expo" name w); [right; by left | done | done | done].
  - by apply lookup_plant.
  - unfold expoFiles. rewrite !dom_insert_L, dom_empty_L. set_solver.
  - unfold expoFiles. by rewrite lookup_insert_ne, lookup_insert_eq.
  - unfold expoFiles. by rewrite lookup_insert_eq.
  - exists "import React from 'react';
import { View, Text, StyleSheet } from 'react-native';

". eexists ") {
  return (
    <View style={styles.container}>
      ". eexists. unfold expoIndexContent. reflexivity.
  - exists "import { StyleSheet } from 'react-native';

". eexists. unfold expoStylesContent. reflexivity.
Qed.

Lemma add_expo_scaffolds_witness :
  ∃ d files,
    addComponent (os := posix_limits) sample_cwd "expo" "login" (boot sample_disk)
    = (Ret tt, World d [Log Green "✓ Successfully created login for expo!"]) ∧
    lookup_path ["app"; "login"] d = Some (Dir files) ∧
    dom files = {[ "index.tsx"; "styles.js" ]} ∧
    files !! "index.tsx" = Some (File (expoIndexContent "login")) ∧
    files !! "styles.js" = Some (File expoStylesContent) ∧
    (∃ before middle rest,
       expoIndexContent "login"
       = before +:+ "export default function loginScreen(" +:+
         middle +:+ "<Text style={styles.title}>login Screen</Text>" +:+ rest) ∧
    (∃ before rest,
       expoStylesContent
       = before +:+ "export default StyleSheet.create({
  container: {" +:+ rest).
Proof.
  refine (add_expo_scaffolds (os := posix_limits) sample_cwd "login" (boot sample_disk) _ _ _).
  - vm_compute. reflexivity.
  - intros q c [k Hk] Hc.
    destruct q as [|a [|b q]]; vm_compute in Hk; simplify_eq; vm_compute in Hc;
      simplify_eq; reflexivity.
  - apply posix_limits_allow; [vm_compute; reflexivity |].
    intros f Hf. unfold expoFiles in Hf. rewrite !dom_insert, dom_empty in Hf.
    apply elem_of_union in Hf as [Hf | Hf]; [| apply elem_of_union in Hf as [Hf | Hf]].
    + apply elem_of_singleton in Hf as ->. vm_compute. lia.
    + apply elem_of_singleton in Hf as ->. vm_compute. lia.
    + by apply elem_of_empty in Hf.
Defined.

(** C5 as stated fails: in [/app], where [notes.txt] is a regular file,
    the target of the name [notes.txt/login] is absent, and [add expo]
    ends in the error that [mkdir] raises; no directory is created. *)
Lemma add_expo_blocked_by_file :
  let run := addComponent (os := posix_limits) sample_cwd "expo" "notes.txt/login"
               (boot sample_disk) in
  lookup_path (segs (target sample_cwd "notes.txt/login")) sample_disk = None ∧
  fs_exists (target sample_cwd "notes.txt/login") sample_disk = false ∧
  run = (Exit 1,
         World sample_disk
           [Log Red "✗ Error creating component: ENOTDIR: not a directory, mkdir '/app/notes.txt/login'"]) ∧
  lookup_path (segs (target sample_cwd "notes.txt/login")) (disk (snd run)) = None.
Proof. vm_compute. by repeat split. Qed.

(** ** Every outcome of [add] *)

(** The three file-system steps of a [create] handler, whatever the
    operating system refuses: [mkdir] fails, or the first file cannot be
    opened and the directory stays empty, or the second cannot and the
    directory stays with the first, or all is done. *)
Lemma scaffold_outcome {os : OS} t f1 c1 f2 c2 w :
  segs (path_join t f1) = (segs t ++ [f1])%list →
  segs (path_join t f2) = (segs t ++ [f2])%list →
  fs_exists t (disk w) = false →
  (∃ e e' d,
     mkdirp (refuses Mkdir) (segs t) (disk w) = (Some e, d) ∧
     (mkdirSync t >> writeFileSync (path_join t f1) c1 >> writeFileSync (path_join t f2) c2) w
     = (Throw (SystemError e' "mkdir" t), World d (console w)))
  ∨
  (lookup_path (segs t) (disk w) = None ∧
   ancestors_are_dirs (segs t) (disk w) ∧
   (∀ q, q `prefix_of` segs t → lookup_path q (disk w) = None → refuses Mkdir q = None) ∧
   ((∃ e,
       refuses Open (segs t ++ [f1]) = Some e ∧
       (mkdirSync t >> writeFileSync (path_join t f1) c1 >> writeFileSync (path_join t f2) c2) w
       = (Throw (SystemError e "open" (path_join t f1)),
          World (plant (segs t) (Dir ∅) (disk w)) (console w)))
    ∨
    (refuses Open (segs t ++ [f1]) = None ∧
     ∃ e,
       refuses Open (segs t ++ [f2]) = Some e ∧
       (mkdirSync t >> writeFileSync (path_join t f1) c1 >> writeFileSync (path_join t f2) c2) w
       = (Throw (SystemError e "open" (path_join t f2)),
          World (plant (segs t) (Dir (<[f1 := File c1]> ∅)) (disk w)) (console w)))
    ∨
    (refuses Open (segs t ++ [f1]) = None ∧
     refuses Open (segs t ++ [f2]) = None ∧
     (mkdirSync t >> writeFileSync (path_join t f1) c1 >> writeFileSync (path_join t f2) c2) w
     = (Ret tt,
        World (plant (segs t) (Dir (<[f2 := File c2]> (<[f1 := File c1]> ∅))) (disk w))
          (console w))))).
Proof.
  intros E1 E2 Hex.
  destruct (mkdirp (refuses Mkdir) (segs t) (disk w)) as [[e|] d] eqn:Hmk.
  { left. exists e. unfold bind at 1. unfold mkdirSync. rewrite Hmk.
    destruct e; eexists _, d; (split; [reflexivity |]); reflexivity. }
  right. destruct (mkdirp_done _ _ _ _ Hmk) as [Hanc Hallow].
  assert (lookup_path (segs t) (disk w) = None) as Habs.
  { destruct (lookup_path (segs t) (disk w)) as [c|] eqn:E; [| done].
    pose proof (Hanc _ _ (reflexivity _) E) as Hd. destruct c; [done |].
    unfold fs_exists in Hex. by rewrite E in Hex. }
  split; [done |]. split; [done |]. split; [done |].
  unfold bind, mkdirSync, writeFileSync.
  rewrite (mkdirp_plant _ _ _ Hanc Hallow), Habs. cbn [default disk console].
  rewrite E1. destruct (refuses Open (segs t ++ [f1])) as [e|] eqn:H1.
  { left. by exists e. }
  right. rewrite (write_file_plant _ _ _ _ _ Hanc).
  2:{ intros m'. by rewrite lookup_empty. }
  cbn [disk console]. rewrite E2.
  destruct (refuses Open (segs t ++ [f2])) as [e|] eqn:H2.
  { left. split; [done |]. by exists e. }
  right. rewrite (write_file_plant _ _ _ _ _ Hanc); [done |].
  intros m'. rewrite lookup_insert. case_decide; [done |]. by rewrite lookup_empty.
Qed.

(** The same for [addComponent]: the errors are caught, reported in one
    red line and turned into exit status 1, with the disk as the failed
    step left it. *)
Lemma add_outcome {os : OS} cwd platform name w :
  valid_platform platform →
  ∃ f1 c1 f2 c2,
    (f1, f2) = (first_file platform, second_file platform) ∧
    scaffold_files platform name = <[f2 := File c2]> (<[f1 := File c1]> ∅) ∧
    ((fs_exists (target cwd name) (disk w) = true ∧
      ∃ reason,
        addComponent cwd platform name w
        = (Exit 1,
           World (disk w)
             (console w ++ [Log Red ("✗ Error creating component: " +:+ reason)])))
     ∨
     (fs_exists (target cwd name) (disk w) = false ∧
      ∃ e d reason,
        mkdirp (refuses Mkdir) (segs (target cwd name)) (disk w) = (Some e, d) ∧
        addComponent cwd platform name w
        = (Exit 1,
           World d (console w ++ [Log Red ("✗ Error creating component: " +:+ reason)])))
     ∨
     (lookup_path (segs (target cwd name)) (disk w) = None ∧
      ancestors_are_dirs (segs (target cwd name)) (disk w) ∧
      (∀ q, q `prefix_of` segs (target cwd name) →
            lookup_path q (disk w) = None → refuses Mkdir q = None) ∧
      ((∃ e reason,
          refuses Open (segs (target cwd name) ++ [f1]) = Some e ∧
          addComponent cwd platform name w
          = (Exit 1,
             World (plant (segs (target cwd name)) (Dir ∅) (disk w))
               (console w ++ [Log Red ("✗ Error creating component: " +:+ reason)])))
       ∨
       (refuses Open (segs (target cwd name) ++ [f1]) = None ∧
        ∃ e reason,
          refuses Open (segs (target cwd name) ++ [f2]) = Some e ∧
          addComponent cwd platform name w
          = (Exit 1,
             World (plant (segs (target cwd name)) (Dir (<[f1 := File c1]> ∅)) (disk w))
               (console w ++ [Log Red ("✗ Error creating component: " +:+ reason)])))
       ∨
       (refuses Open (segs (target cwd name) ++ [f1]) = None ∧
        refuses Open (segs (target cwd name) ++ [f2]) = None ∧
        addComponent cwd platform name w
        = (Ret tt,
           World (plant (segs (target cwd name)) (Dir (scaffold_files platform name)) (disk w))
             (console w ++
              [Log Green ("✓ Successfully created " +:+ name +:+ " for " +:+ platform +:+
                          "!")])))))).
Proof.
  intros Hp.
  assert (∃ f1 c1 f2 c2,
            (f1, f2) = (first_file platform, second_file platform) ∧
            scaffold_files platform name = <[f2 := File c2]> (<[f1 := File c1]> ∅) ∧
            segs (path_join (target cwd name) f1) = segs (target cwd name) ++ [f1] ∧
            segs (path_join (target cwd name) f2) = segs (target cwd name) ++ [f2] ∧
            (fs_exists (target cwd name) (disk w) = false →
             (if String.eqb platform "next" then createNextComponents cwd name
              else if String.eqb platform "expo" then createExpoComponents cwd name
              else if String.eqb platform "react-native"
                   then createReactNativeComponents cwd name
              else ret tt) w
             = (mkdirSync (target cwd name) >>
                writeFileSync (path_join (target cwd name) f1) c1 >>
                writeFileSync (path_join (target cwd name) f2) c2) w))
    as (f1 & c1 & f2 & c2 & Hnames & Hfiles & E1 & E2 & Hrun).
  { destruct Hp as [-> | [-> | ->]].
    - exists "page.tsx", (pageContent name), "layout.tsx", (layoutContent name).
      repeat split. intros Hex. cbn [String.eqb Ascii.eqb Bool.eqb].
      unfold createNextComponents. unfold bind at 1. unfold existsSync.
      fold (target cwd name). by rewrite Hex.
    - exists "index.tsx", (expoIndexContent name), "styles.js", expoStylesContent.
      repeat split. intros Hex. cbn [String.eqb Ascii.eqb Bool.eqb].
      unfold createExpoComponents. unfold bind at 1. unfold existsSync.
      fold (target cwd name). by rewrite Hex.
    - exists "index.jsx", (reactNativeIndexContent name), "styles.js",
        reactNativeStylesContent.
      repeat split. intros Hex. cbn [String.eqb Ascii.eqb Bool.eqb].
      unfold createReactNativeComponents. unfold bind at 1. unfold existsSync.
      fold (target cwd name). by rewrite Hex. }
  exists f1, c1, f2, c2. split; [done |]. split; [done |].
  destruct (fs_exists (target cwd name) (disk w)) eqn:Hex.
  { left. split; [done |]. eexists. by apply add_existing_target_exits. }
  right. specialize (Hrun eq_refl).
  assert (addComponent cwd platform name w
          = match (mkdirSync (target cwd name) >>
                   writeFileSync (path_join (target cwd name) f1) c1 >>
                   writeFileSync (path_join (target cwd name) f2) c2) w with
            | (Ret _, w') =>
                (Ret tt,
                 World (disk w')
                   (console w' ++
                    [Log Green ("✓ Successfully created " +:+ name +:+ " for " +:+
                                platform +:+ "!")]))
            | (Throw e, w') =>
                (Exit 1,
                 World (disk w')
                   (console w' ++ [Log Red ("✗ Error creating component: " +:+ message e)]))
            | (Exit code, w') => (Exit code, w')
            | (Blocked, w') => (Blocked, w')
            end) as Hadd.
  { unfold addComponent, try_catch. unfold bind at 1. rewrite Hrun.
    destruct ((mkdirSync (target cwd name) >>
               writeFileSync (path_join (target cwd name) f1) c1 >>
               writeFileSync (path_join (target cwd name) f2) c2) w)
      as [[[] | e | code |] w']; by run_proc. }
  rewrite Hadd. clear Hadd.
  destruct (scaffold_outcome (target cwd name) f1 c1 f2 c2 w E1 E2 Hex)
    as [(e & e' & d & Hmk & Hr) | (Habs & Hanc & Hallow & Hwrite)].
  { left. split; [done |]. exists e, d. eexists. split; [done |]. by rewrite Hr. }
  right. split; [done |]. split; [done |]. split; [done |].
  destruct Hwrite as [(e & He & Hr) | [(H1 & e & He & Hr) | (H1 & H2 & Hr)]].
  - left. exists e. eexists. split; [done |]. by rewrite Hr.
  - right. left. split; [done |]. exists e. eexists. split; [done |]. by rewrite Hr.
  - right. right. split; [done |]. split; [done |]. by rewrite Hr, Hfiles.
Qed.

(** ** Removing *)



(** What [removeComponent] makes of the outcome of its handler. *)
Lemma removeComponent_outcome cwd platform name w :
  valid_platform platform →
  removeComponent cwd platform name w
  = match (if fs_exists (target cwd name) (disk w) then rmSync (target cwd name) w
           else (Throw (Error (component_label platform +:+ dq +:+ name +:+ dq +:+
                               " doesn't exist")), w)) with
    | (Ret _, w') =>
        (Ret tt,
         World (disk w')
           (console w' ++
            [Log Green ("✓ Successfully removed " +:+ name +:+ " from " +:+ platform +:+ "!")]))
    | (Throw e, w') =>
        (Exit 1,
         World (disk w')
           (console w' ++ [Log Red ("✗ Error removing component: " +:+ message e)]))
    | (Exit code, w') => (Exit code, w')
    | (Blocked, w') => (Blocked, w')
    end.
Proof.
  intros Hp. unfold removeComponent, try_catch. unfold bind at 1.
  destruct (fs_exists (target cwd name) (disk w)) eqn:Hex.
  - rewrite (removed _ _ _ _ Hp Hex).
    destruct (rmSync (target cwd name) w) as [[[] | e | code |] w']; by run_proc.
  - rewrite (doesnt_exist_thrown _ _ _ _ Hp Hex). by run_proc.
Qed.






(** Both steps of that round trip succeed under [posix_limits], and with
    the name of 256 bytes both fail and the disk is untouched. *)
Example round_trip_runs :
  (∃ w1 w2,
     addComponent (os := posix_limits) sample_cwd "react-native" "profile" (boot sample_disk)
     = (Ret tt, w1) ∧
     removeComponent sample_cwd "react-native" "profile" w1 = (Ret tt, w2) ∧
     disk w2 = sample_disk) ∧
  (∃ w1 w2,
     addComponent (os := posix_limits) sample_cwd "react-native" long_name (boot sample_disk)
     = (Exit 1, w1) ∧
     removeComponent sample_cwd "react-native" long_name w1 = (Exit 1, w2) ∧
     disk w2 = sample_disk).
Proof. split; eexists _, _; (split; [vm_compute; reflexivity |]); split; by vm_compute. Qed.


(** C9: the three [remove] handlers compute the same thing.  Each checks
    the same target and, when it exists, performs the same recursive
    forced removal; otherwise each throws and leaves the world alone.
    Only the wording of the thrown message differs ([Component/page] for
    Next.js, [Component] for the two others), so the platform given to
    [remove] affects neither the exit status nor the resulting disk. *)
Theorem remove_handlers_agree cwd name w :
  removeNextComponents cwd name w
  = (if fs_exists (target cwd name) (disk w) then rmSync (target cwd name) w
     else (Throw (Error ("Component/page " +:+ dq +:+ name +:+ dq +:+ " doesn't exist")), w)) ∧
  removeExpoComponents cwd name w
  = (if fs_exists (target cwd name) (disk w) then rmSync (target cwd name) w
     else (Throw (Error ("Component " +:+ dq +:+ name +:+ dq +:+ " doesn't exist")), w)) ∧
  removeReactNativeComponents cwd name w = removeExpoComponents cwd name w ∧
  (∀ p1 p2, valid_platform p1 → valid_platform p2 →
     exit_code (fst (removeComponent cwd p1 name w))
     = exit_code (fst (removeComponent cwd p2 name w)) ∧
     disk (snd (removeComponent cwd p1 name w))
     = disk (snd (removeComponent cwd p2 name w))).
Proof.
  split; [| split; [| split]].
  - unfold removeNextComponents, bind, existsSync, target.
    by destruct (fs_exists _ _).
  - unfold removeExpoComponents, bind, existsSync, target.
    by destruct (fs_exists _ _).
  - reflexivity.
  - intros p1 p2 H1 H2.
    rewrite (removeComponent_outcome _ _ _ _ H1), (removeComponent_outcome _ _ _ _ H2).
    destruct (fs_exists (target cwd name) (disk w)); [| done].
    by destruct (rmSync (target cwd name) w) as [[[] | e | code |] w'].
Qed.

(** ** The interactive prompt *)

Lemma validateName_accepts input :
  validateName input = VTrue ↔ ¬ whitespace_only input.
Proof.
  rewrite <- trim_empty. unfold validateName.
  destruct (String.eqb_spec (trim input) ""); simpl; split; done.
Qed.

Lemma validateName_rejects input :
  whitespace_only input → validateName input = VMessage "Name cannot be empty".
Proof.
  intros H. apply trim_empty in H. unfold validateName. by rewrite H.
Qed.

Lemma read_valid_skips rejected good rest w :
  Forall whitespace_only rejected →
  validateName good = VTrue →
  read_valid validateName (rejected ++ good :: rest) w
  = (Ret good,
     World (disk w) (console w ++ map (λ _, Invalid "Name cannot be empty") rejected)).
Proof.
  intros Hrej Hgood. revert w. induction Hrej as [|input rejected Hin _ IH]; intros w.
  - simpl. rewrite Hgood, app_nil_r. by destruct w.
  - cbn [app read_valid map]. rewrite (validateName_rejects _ Hin).
    unfold bind at 1. unfold emit. rewrite IH. cbn [disk console].
    by rewrite <- app_assoc.
Qed.

(** White space is more than the blank: a no-break space, a line
    separator or a byte-order mark alone is rejected too, while a name
    between spaces is accepted and kept with its spaces. *)
Example validateName_examples :
  validateName "" = VMessage "Name cannot be empty" ∧
  validateName "   " = VMessage "Name cannot be empty" ∧
  validateName (encode_utf8 [160]%N) = VMessage "Name cannot be empty" ∧
  validateName (encode_utf8 [9; 8232; 65279; 12288]%N) = VMessage "Name cannot be empty" ∧
  validateName " login " = VTrue ∧
  validateName (encode_utf8 [160; 97; 160]%N) = VTrue ∧
  validateName (encode_utf8 [133]%N) = VTrue.
Proof. vm_compute. by repeat split. Qed.

(** C8: the name question accepts a line exactly when it is not made of
    white-space characters only; an empty or blank line is answered with
    [Name cannot be empty] and the question is asked again; the accepted
    line goes, as typed, to the [add] or [remove] logic that the
    dispatcher runs on the tokens [platform action name]. *)
Theorem name_prompt_validation {os : OS} cwd pick_platform pick_action rejected good rest w :
  Forall whitespace_only rejected →
  ¬ whitespace_only good →
  let platform := nth (pick_platform mod 3) ["next"; "expo"; "react-native"] "" in
  let action := nth (pick_action mod 2) ["add"; "remove"] "" in
  let u := User pick_platform pick_action (rejected ++ good :: rest) in
  let asked :=
    World (disk w)
      (console w ++
       [Question "Select platform:"; Question "What do you want to do?";
        Question "Enter component/page name:"] ++
       map (λ _, Invalid "Name cannot be empty") rejected) in
  (∀ input,
     (validateName input = VTrue ↔ ¬ whitespace_only input) ∧
     (validateName input = VTrue ↔ trim input ≠ "") ∧
     (validateName input = VTrue ∨ validateName input = VMessage "Name cannot be empty")) ∧
  valid_platform platform ∧
  valid_action action ∧
  interactiveCLI cwd u w
  = (if String.eqb action "add" then addComponent cwd platform good
     else removeComponent cwd platform good) asked ∧
  interactiveCLI cwd u w = parseArguments cwd u [platform; action; good] asked.
Proof.
  intros Hrej Hgood platform action u asked.
  apply validateName_accepts in Hgood.
  assert (valid_platform platform) as Hp.
  { subst platform. pose proof (Nat.mod_upper_bound pick_platform 3 ltac:(done)) as Hlt.
    destruct (pick_platform mod 3) as [|[|[|n]]]; cbn; unfold valid_platform; auto. lia. }
  assert (valid_action action) as Ha.
  { subst action. pose proof (Nat.mod_upper_bound pick_action 2 ltac:(done)) as Hlt.
    destruct (pick_action mod 2) as [|[|n]]; cbn; unfold valid_action; auto. lia. }
  assert (interactiveCLI cwd u w
          = (if String.eqb action "add" then addComponent cwd platform good
             else removeComponent cwd platform good) asked) as Hrun.
  { unfold interactiveCLI, list_prompt, input_prompt.
    cbn [platform_choice action_choice typed u length].
    fold platform action. run_proc.
    rewrite (read_valid_skips _ _ _ _ Hrej Hgood). cbn [disk console].
    rewrite <- !app_assoc. cbn [app]. fold asked.
    destruct Ha as [-> | ->]; reflexivity. }
  split; [| split; [done | split; [done | split; [done |]]]].
  - intros input. split; [apply validateName_accepts |]. split.
    + unfold validateName. by destruct (String.eqb_spec (trim input) "").
    + unfold validateName. destruct (negb _); auto.
  - rewrite Hrun. destruct Ha as [-> | ->].
    + by rewrite (parse_add _ _ _ _ _ Hp).
    + by rewrite (parse_remove _ _ _ _ _ Hp).
Qed.

Lemma name_prompt_validation_witness :
  (∀ input,
     (validateName input = VTrue ↔ ¬ whitespace_only input) ∧
     (validateName input = VTrue ↔ trim input ≠ "") ∧
     (validateName input = VTrue ∨ validateName input = VMessage "Name cannot be empty")) ∧
  valid_platform "expo" ∧
  valid_action "add" ∧
  interactiveCLI (os := posix_limits) sample_cwd sample_user (boot sample_disk)
  = addComponent (os := posix_limits) sample_cwd "expo" "login"
      (World sample_disk
         [Question "Select platform:"; Question "What do you want to do?";
          Question "Enter component/page name:";
          Invalid "Name cannot be empty"; Invalid "Name cannot be empty"]) ∧
  interactiveCLI (os := posix_limits) sample_cwd sample_user (boot sample_disk)
  = parseArguments (os := posix_limits) sample_cwd sample_user ["expo"; "add"; "login"]
      (World sample_disk
         [Question "Select platform:"; Question "What do you want to do?";
          Question "Enter component/page name:";
          Invalid "Name cannot be empty"; Invalid "Name cannot be empty"]).
Proof.
  refine (name_prompt_validation (os := posix_limits) sample_cwd 1 0 [""; "  "] "login" []
            (boot sample_disk) _ _).
  - repeat constructor; by apply trimStart_empty.
  - intros H. apply trimStart_empty in H. discriminate H.
Defined.

(** ** The empty name *)



Example empty_name_removes_cwd :
  main (os := posix_limits) sample_cwd sample_user ["expo"; "remove"; ""] (boot sample_disk)
  = (Ret tt, World (Dir ∅) [Log Green "✓ Successfully removed  from expo!"]).
Proof. by vm_compute. Qed.

(** * Further properties of the handlers and of the dispatcher *)

(** ** More on the directory tree *)

(** Planting at an absent path keeps every entry that was there: a regular
    file keeps its content, a directory stays a directory. *)
Lemma plant_keeps p x n q c :
  lookup_path p n = None → ancestors_are_dirs p n →
  lookup_path q n = Some c →
  ∃ c', lookup_path q (plant p x n) = Some c' ∧
        is_dir c' = is_dir c ∧ (is_dir c = false → c' = c).
Proof.
  revert n q. induction p as [|a p IH]; intros n q Habs Hanc Hq; [done |].
  destruct (ancestors_root _ _ Hanc) as [m ->].
  destruct q as [|b q].
  - simpl in Hq. inversion Hq; subst. eexists. split; [reflexivity |]. by split.
  - simpl in Hq. destruct (m !! b) as [y|] eqn:Hb; [| done].
    cbn [plant lookup_path]. destruct (decide (a = b)) as [-> | Hne].
    + rewrite lookup_insert_eq, Hb. simpl. apply IH; [| | done].
      * simpl in Habs. by rewrite Hb in Habs.
      * pose proof (ancestors_cons _ _ _ Hanc) as H. by rewrite Hb in H.
    + rewrite lookup_insert_ne, Hb by done. exists c. by rewrite Hq.
Qed.

Lemma lookup_plant_parent q s c m n :
  lookup_path q n = Some (Dir m) →
  lookup_path q (plant (q ++ [s]) c n) = Some (Dir (<[s := c]> m)).
Proof.
  revert n. induction q as [|a q IH]; intros n Hq.
  - simpl in Hq. by inversion Hq.
  - simpl in Hq. destruct n as [|m0]; [done |].
    destruct (m0 !! a) as [x|] eqn:Ha; [| done].
    change ((a :: q) ++ [s]) with (a :: (q ++ [s])). cbn [plant lookup_path].
    rewrite lookup_insert_eq, Ha. simpl. by apply IH.
Qed.




(** ** More on paths *)

Lemma split_slash_simple s : "/"%char ∉ chars s → split_slash s = [s].
Proof.
  induction s as [|c s IH]; intros H; [done |]. simpl in *.
  destruct (Ascii.eqb_spec c "/") as [-> | Hc].
  - destruct H. apply list_elem_of_here.
  - rewrite IH; [done |]. intros Hin. apply H. by apply list_elem_of_further.
Qed.

Lemma ends_with_slash_simple s : "/"%char ∉ chars s → ends_with_slash s = false.
Proof.
  induction s as [|c s IH]; intros H; [done |]. simpl in *.
  destruct s as [|c' s].
  - destruct (Ascii.eqb_spec c "/") as [-> | Hc]; [| done].
    destruct H. apply list_elem_of_here.
  - apply IH. intros Hin. apply H. by apply list_elem_of_further.
Qed.

Lemma target_simple cwd name :
  simple_name name → target cwd name = Path (cwd ++ [name]) false.
Proof.
  intros (H0 & H1 & H2 & Hs). unfold target, path_join, process_cwd.
  apply String.eqb_neq in H0, H1, H2. rewrite H0. cbn [segs].
  rewrite (split_slash_simple _ Hs), (ends_with_slash_simple _ Hs).
  unfold normalize_onto, normalize_step. cbn [fold_left]. by rewrite H0, H1, H2.
Qed.


(** ** What [add] can do *)

Lemma elem_of_two (f a b : string) :
  f ∈ ({[a]} ∪ ({[b]} ∪ ∅) : gset string) → f = a ∨ f = b.
Proof. rewrite !elem_of_union, !elem_of_singleton, elem_of_empty. tauto. Qed.

(** With names of ordinary length, [posix_limits] lets every scaffold
    through. *)
Lemma posix_allows_scaffold platform name p n :
  valid_platform platform →
  name_too_long p = false →
  creation_allowed (os := posix_limits) p (scaffold_files platform name) n.
Proof.
  intros Hp Hlen. apply posix_limits_allow; [done |]. intros f Hf.
  assert (f = first_file platform ∨ f = second_file platform) as Hcases.
  { destruct Hp as [-> | [-> | ->]];
      cbn [scaffold_files first_file second_file String.eqb Ascii.eqb Bool.eqb] in *;
      unfold nextFiles, expoFiles, reactNativeFiles in Hf;
      rewrite !dom_insert, dom_empty in Hf;
      destruct (elem_of_two _ _ _ Hf); auto. }
  destruct Hp as [-> | [-> | ->]], Hcases as [-> | ->]; vm_compute; lia.
Qed.

(** Whatever [add] does, everything that was on the disk is still
    there. *)
Lemma add_keeps {os : OS} cwd platform name w :
  valid_platform platform →
  kept_in (disk w) (disk (snd (addComponent cwd platform name w))).
Proof.
  intros Hp.
  destruct (add_outcome cwd platform name w Hp)
    as (f1 & c1 & f2 & c2 & _ & Hfiles &
        [(Hex & reason & ->) |
         [(Hex & e & d & reason & Hmk & ->) |
          (Habs & Hanc & Hmkdir &
           [(e & reason & Hopen & ->) |
            [(Hopen1 & e & reason & Hopen & ->) | (Hopen1 & Hopen2 & ->)]])]]);
    cbn [snd disk].
  - apply kept_in_refl.
  - by apply (mkdirp_keeps _ _ _ _ _ Hmk).
  - intros q c Hq. by apply plant_keeps.
  - intros q c Hq. by apply plant_keeps.
  - intros q c Hq. by apply plant_keeps.
Qed.

(** [add] returns normally in one case only. *)
Lemma add_returns {os : OS} cwd platform name w w1 :
  valid_platform platform →
  addComponent cwd platform name w = (Ret tt, w1) →
  lookup_path (segs (target cwd name)) (disk w) = None ∧
  ancestors_are_dirs (segs (target cwd name)) (disk w) ∧
  creation_allowed (segs (target cwd name)) (scaffold_files platform name) (disk w) ∧
  w1 = World (plant (segs (target cwd name)) (Dir (scaffold_files platform name)) (disk w))
         (console w ++
          [Log Green ("✓ Successfully created " +:+ name +:+ " for " +:+ platform +:+ "!")]).
Proof.
  intros Hp Hret.
  destruct (add_outcome cwd platform name w Hp)
    as (f1 & c1 & f2 & c2 & _ & Hfiles &
        [(Hex & reason & Hadd) |
         [(Hex & e & d & reason & Hmk & Hadd) |
          (Habs & Hanc & Hmkdir &
           [(e & reason & Hopen & Hadd) |
            [(Hopen1 & e & reason & Hopen & Hadd) | (Hopen1 & Hopen2 & Hadd)]])]]);
    rewrite Hadd in Hret; try discriminate Hret.
  split; [done |]. split; [done |]. split; [| by simplify_eq].
  split; [done |]. intros f Hf. rewrite Hfiles, !dom_insert, dom_empty in Hf.
  by destruct (elem_of_two _ _ _ Hf) as [-> | ->].
Qed.

(** X1: for every name whose target path is absent, when no file-system
    call of the handler raises an error (no regular file among the
    ancestors of the target, and the operating system refuses neither to
    make a missing directory nor to open the two files),
    [add react-native] succeeds and the target is then a directory holding
    exactly [index.jsx] and [styles.js].  The first declares a constant
    named by the name as given, renders the name followed by [ Component],
    imports its styles from the sibling module and exports the constant by
    default; the second exports a style sheet with a [container] and a
    [text] rule. *)
Theorem add_react_native_scaffolds {os : OS} cwd name w :
  lookup_path (segs (target cwd name)) (disk w) = None →
  ancestors_are_dirs (segs (target cwd name)) (disk w) →
  creation_allowed (segs (target cwd name)) (reactNativeFiles name) (disk w) →
  ∃ d files,
    addComponent cwd "react-native" name w
    = (Ret tt,
       World d
         (console w ++
          [Log Green ("✓ Successfully created " +:+ name +:+ " for react-native!")])) ∧
    lookup_path (segs (target cwd name)) d = Some (Dir files) ∧
    dom files = {[ "index.jsx"; "styles.js" ]} ∧
    files !! "index.jsx" = Some (File (reactNativeIndexContent name)) ∧
    files !! "styles.js" = Some (File reactNativeStylesContent) ∧
    (∃ before middle,
       reactNativeIndexContent name
       = before +:+ "import styles from './styles';

const " +:+ name +:+ " = () => {" +:+ middle +:+
         "<Text style={styles.text}>" +:+ name +:+ " Component</Text>
    </View>
  );
};

export default " +:+ name +:+ ";
") ∧
    (∃ before middle rest,
       reactNativeStylesContent
       = before +:+ "export default StyleSheet.create({
  container: {" +:+ middle +:+ "
  text: {" +:+ rest).
Proof.
  intros Habs Hanc Hallow. eexists _, (reactNativeFiles name).
  split; [| split; [| split; [| split; [| split; [| split]]]]].
  - apply (add_succeeds cwd "react-native" name w); [right; by right | done | done | done].
  - by apply lookup_plant.
  - unfold reactNativeFiles. rewrite !dom_insert_L, dom_empty_L. set_solver.
  - unfold reactNativeFiles. by rewrite lookup_insert_ne, lookup_insert_eq.
  - unfold reactNativeFiles. by rewrite lookup_insert_eq.
  - exists "import React from 'react';
import { View, Text } from 'react-native';
". exists "
  return (
    <View style={styles.container}>
      ". unfold reactNativeIndexContent. reflexivity.
  - exists "import { StyleSheet } from 'react-native';

". exists "
    padding: 16,
    backgroundColor: '#f5f5f5',
    borderRadius: 8,
  },". eexists. unfold reactNativeStylesContent. reflexivity.
Qed.

Lemma add_react_native_scaffolds_witness :
  ∃ d files,
    addComponent (os := posix_limits) sample_cwd "react-native" "profile" (boot sample_disk)
    = (Ret tt, World d [Log Green "✓ Successfully created profile for react-native!"]) ∧
    lookup_path ["app"; "profile"] d = Some (Dir files) ∧
    dom files = {[ "index.jsx"; "styles.js" ]} ∧
    files !! "index.jsx" = Some (File (reactNativeIndexContent "profile")) ∧
    files !! "styles.js" = Some (File reactNativeStylesContent) ∧
    (∃ before middle,
       reactNativeIndexContent "profile"
       = before +:+ "import styles from './styles';

const profile = () => {" +:+ middle +:+
         "<Text style={styles.text}>profile Component</Text>
    </View>
  );
};

export default profile;
") ∧
    (∃ before middle rest,
       reactNativeStylesContent
       = before +:+ "export default StyleSheet.create({
  container: {" +:+ middle +:+ "
  text: {" +:+ rest).
Proof.
  refine (add_react_native_scaffolds (os := posix_limits) sample_cwd "profile"
            (boot sample_disk) _ _ _).
  - vm_compute. reflexivity.
  - intros q c [k Hk] Hc.
    destruct q as [|a [|b q]]; vm_compute in Hk; simplify_eq; vm_compute in Hc;
      simplify_eq; reflexivity.
  - apply (posix_allows_scaffold "react-native"); [right; by right | vm_compute; reflexivity].
Defined.



(** X3: for each platform and every name, whatever [add] does, it
    neither deletes nor overwrites: every regular file of the disk is
    still there with the same content, and every directory is still a
    directory. *)
Theorem add_keeps_existing {os : OS} cwd platform name w q :
  valid_platform platform →
  (∀ content,
     lookup_path q (disk w) = Some (File content) →
     lookup_path q (disk (snd (addComponent cwd platform name w))) = Some (File content)) ∧
  (∀ entries,
     lookup_path q (disk w) = Some (Dir entries) →
     ∃ entries',
       lookup_path q (disk (snd (addComponent cwd platform name w))) = Some (Dir entries')).
Proof.
  intros Hp. pose proof (add_keeps cwd platform name w Hp) as Hkept. split.
  - intros content Hq. destruct (Hkept _ _ Hq) as (c' & -> & _ & Hc). by rewrite Hc.
  - intros entries Hq. destruct (Hkept _ _ Hq) as (c' & -> & Hc & _).
    destruct c'; [done | eauto].
Qed.

Lemma add_keeps_existing_witness :
  (∀ content,
     lookup_path ["app"; "notes.txt"] sample_disk = Some (File content) →
     lookup_path ["app"; "notes.txt"]
       (disk (snd (addComponent (os := posix_limits) sample_cwd "next" "notes.txt/../about"
                     (boot sample_disk))))
     = Some (File content)) ∧
  (∀ entries,
     lookup_path ["app"; "notes.txt"] sample_disk = Some (Dir entries) →
     ∃ entries',
       lookup_path ["app"; "notes.txt"]
         (disk (snd (addComponent (os := posix_limits) sample_cwd "next" "notes.txt/../about"
                       (boot sample_disk))))
       = Some (Dir entries')).
Proof.
  refine (add_keeps_existing (os := posix_limits) sample_cwd "next" "notes.txt/../about"
            (boot sample_disk) ["app"; "notes.txt"] _).
  left. reflexivity.
Defined.

(** X4: [add] is not rolled back.  When the target directory can be made
    but the first file of the scaffold cannot be opened, [add] exits with
    status 1 and leaves the target behind as an empty directory; when the
    first file is written and the second cannot be opened, it exits with
    status 1 and leaves the target holding the first file alone. *)
Theorem add_is_not_rolled_back {os : OS} cwd platform name w :
  valid_platform platform →
  lookup_path (segs (target cwd name)) (disk w) = None →
  ancestors_are_dirs (segs (target cwd name)) (disk w) →
  (∀ q, q `prefix_of` segs (target cwd name) →
        lookup_path q (disk w) = None → refuses Mkdir q = None) →
  (∀ e, refuses Open (segs (target cwd name) ++ [first_file platform]) = Some e →
     ∃ reason,
       addComponent cwd platform name w
       = (Exit 1,
          World (plant (segs (target cwd name)) (Dir ∅) (disk w))
            (console w ++ [Log Red ("✗ Error creating component: " +:+ reason)]))) ∧
  (∀ e, refuses Open (segs (target cwd name) ++ [first_file platform]) = None →
        refuses Open (segs (target cwd name) ++ [second_file platform]) = Some e →
     ∃ reason,
       addComponent cwd platform name w
       = (Exit 1,
          World (plant (segs (target cwd name))
                   (Dir (delete (second_file platform) (scaffold_files platform name)))
                   (disk w))
            (console w ++ [Log Red ("✗ Error creating component: " +:+ reason)]))) ∧
  first_file platform ≠ second_file platform ∧
  dom (delete (second_file platform) (scaffold_files platform name))
  = {[ first_file platform ]}.
Proof.
  intros Hp Habs Hanc Hallow.
  assert (first_file platform ≠ second_file platform) as Hne.
  { by destruct Hp as [-> | [-> | ->]]. }
  destruct (add_outcome cwd platform name w Hp)
    as (f1 & c1 & f2 & c2 & Hnames & Hfiles & Hcases).
  injection Hnames as -> ->.
  assert (delete (second_file platform) (scaffold_files platform name)
          = <[first_file platform := File c1]> ∅) as Hdel.
  { rewrite Hfiles. apply delete_insert_id. by rewrite lookup_insert_ne, lookup_empty. }
  assert (fs_exists (target cwd name) (disk w) = false) as Hex.
  { by apply fs_exists_absent. }
  destruct Hcases
    as [(Hex' & _) |
        [(_ & e & d & reason & Hmk & _) |
         (_ & _ & _ &
          [(e & reason & Hopen & Hadd) |
           [(Hopen1 & e & reason & Hopen & Hadd) | (Hopen1 & Hopen2 & Hadd)]])]].
  - rewrite Hex in Hex'. discriminate Hex'.
  - rewrite (mkdirp_plant _ _ _ Hanc Hallow) in Hmk. discriminate Hmk.
  - split; [by eauto |]. split; [| split; [done |]].
    + intros e' H1. rewrite H1 in Hopen. discriminate Hopen.
    + by rewrite Hdel, dom_insert_L, dom_empty_L, union_empty_r_L.
  - split; [| split; [| split; [done |]]].
    + intros e' H1. rewrite H1 in Hopen1. discriminate Hopen1.
    + intros e' _ _. rewrite Hdel. by eauto.
    + by rewrite Hdel, dom_insert_L, dom_empty_L, union_empty_r_L.
  - split; [| split; [| split; [done |]]].
    + intros e' H1. rewrite H1 in Hopen1. discriminate Hopen1.
    + intros e' _ H2. rewrite H2 in Hopen2. discriminate Hopen2.
    + by rewrite Hdel, dom_insert_L, dom_empty_L, union_empty_r_L.
Qed.

Lemma add_is_not_rolled_back_witness :
  let os := refusing_open "layout.tsx" ENOSPC in
  (∀ e, @refuses os Open (segs (target sample_cwd "about") ++ [first_file "next"]) = Some e →
     ∃ reason,
       addComponent (os := os) sample_cwd "next" "about" (boot sample_disk)
       = (Exit 1,
          World (plant (segs (target sample_cwd "about")) (Dir ∅) sample_disk)
            ([] ++ [Log Red ("✗ Error creating component: " +:+ reason)]))) ∧
  (∀ e, @refuses os Open (segs (target sample_cwd "about") ++ [first_file "next"]) = None →
        @refuses os Open (segs (target sample_cwd "about") ++ [second_file "next"]) = Some e →
     ∃ reason,
       addComponent (os := os) sample_cwd "next" "about" (boot sample_disk)
       = (Exit 1,
          World (plant (segs (target sample_cwd "about"))
                   (Dir (delete (second_file "next") (scaffold_files "next" "about")))
                   sample_disk)
            ([] ++ [Log Red ("✗ Error creating component: " +:+ reason)]))) ∧
  first_file "next" ≠ second_file "next" ∧
  dom (delete (second_file "next") (scaffold_files "next" "about")) = {[ first_file "next" ]}.
Proof.
  refine (add_is_not_rolled_back (os := refusing_open "layout.tsx" ENOSPC) sample_cwd "next"
            "about" (boot sample_disk) _ _ _ _).
  - left. reflexivity.
  - vm_compute. reflexivity.
  - intros q c [k Hk] Hc.
    destruct q as [|a [|b q]]; vm_compute in Hk; simplify_eq; vm_compute in Hc;
      simplify_eq; reflexivity.
  - reflexivity.
Defined.

(** On a disk that is full once [page.tsx] is written, [add next about]
    exits with status 1 and [/app/about] stays, holding [page.tsx]
    alone. *)
Example add_next_half_done :
  ∃ d, addComponent (os := refusing_open "layout.tsx" ENOSPC) sample_cwd "next" "about"
         (boot sample_disk)
       = (Exit 1,
          World d
            [Log Red "✗ Error creating component: ENOSPC: no space left on device, open '/app/about/layout.tsx'"]) ∧
       lookup_path ["app"; "about"] d
       = Some (Dir {[ "page.tsx" := File (pageContent "about") ]}).
Proof. eexists. split; vm_compute; reflexivity. Qed.

(** X5: adding the same name a second time, for whichever platform,
    fails: once [add] has succeeded, the target holds the scaffold and a
    further [add] of that name reports that it already exists, exits with
    status 1 and leaves the scaffold of the first untouched.  The first
    [add] does succeed when the target is absent and none of its
    file-system calls raises an error. *)
Theorem add_twice_fails {os : OS} cwd first second name w :
  valid_platform first → valid_platform second →
  (∀ w1,
     addComponent cwd first name w = (Ret tt, w1) →
     lookup_path (segs (target cwd name)) (disk w1) = Some (Dir (scaffold_files first name)) ∧
     addComponent cwd second name w1
     = (Exit 1,
        World (disk w1)
          (console w1 ++
           [Log Red ("✗ Error creating component: " +:+
                     component_label second +:+ dq +:+ name +:+ dq +:+ " already exists")]))) ∧
  (lookup_path (segs (target cwd name)) (disk w) = None →
   ancestors_are_dirs (segs (target cwd name)) (disk w) →
   creation_allowed (segs (target cwd name)) (scaffold_files first name) (disk w) →
   ∃ w1, addComponent cwd first name w = (Ret tt, w1)).
Proof.
  intros H1 H2. split.
  - intros w1 Hadd. destruct (add_returns _ _ _ _ _ H1 Hadd) as (Habs & Hanc & _ & ->).
    assert (lookup_path (segs (target cwd name))
              (plant (segs (target cwd name)) (Dir (scaffold_files first name)) (disk w))
            = Some (Dir (scaffold_files first name))) as Hdir.
    { by apply lookup_plant. }
    split; [exact Hdir |].
    apply (add_existing_target_exits cwd second name _ H2).
    exact (fs_exists_dir _ _ _ Hdir).
  - intros Habs Hanc Hallow. eexists. by apply add_succeeds.
Qed.

Lemma add_twice_fails_witness :
  (∀ w1,
     addComponent (os := posix_limits) sample_cwd "next" "about" (boot sample_disk)
     = (Ret tt, w1) →
     lookup_path (segs (target sample_cwd "about")) (disk w1)
     = Some (Dir (scaffold_files "next" "about")) ∧
     addComponent (os := posix_limits) sample_cwd "expo" "about" w1
     = (Exit 1,
        World (disk w1)
          (console w1 ++
           [Log Red ("✗ Error creating component: " +:+
                     component_label "expo" +:+ dq +:+ "about" +:+ dq +:+
                     " already exists")]))) ∧
  (lookup_path (segs (target sample_cwd "about")) sample_disk = None →
   ancestors_are_dirs (segs (target sample_cwd "about")) sample_disk →
   creation_allowed (os := posix_limits) (segs (target sample_cwd "about"))
     (scaffold_files "next" "about") sample_disk →
   ∃ w1, addComponent (os := posix_limits) sample_cwd "next" "about" (boot sample_disk)
         = (Ret tt, w1)).
Proof.
  refine (add_twice_fails (os := posix_limits) sample_cwd "next" "expo" "about"
            (boot sample_disk) _ _).
  - left. reflexivity.
  - right. left. reflexivity.
Defined.

Example add_twice_runs :
  ∃ w1,
    addComponent (os := posix_limits) sample_cwd "next" "about" (boot sample_disk)
    = (Ret tt, w1) ∧
    addComponent (os := posix_limits) sample_cwd "expo" "about" w1
    = (Exit 1,
       World (disk w1)
         [Log Green "✓ Successfully created about for next!";
          Log Red ("✗ Error creating component: Component " +:+ dq +:+ "about" +:+ dq +:+
                   " already exists")]).
Proof. eexists. split; vm_compute; reflexivity. Qed.





Example mixed_round_trip_runs :
  ∃ w1 w2,
    addComponent (os := posix_limits) sample_cwd "next" "settings/" (boot sample_disk)
    = (Ret tt, w1) ∧
    removeComponent sample_cwd "expo" "settings/" w1 = (Ret tt, w2) ∧
    disk w2 = sample_disk.
Proof. eexists _, _. repeat split; vm_compute; reflexivity. Qed.

(** X8: an ordinary name (one segment, not empty, not [.] or [..]) is
    resolved directly below the working directory, and when none of its
    file-system calls raises an error [add] puts exactly one new entry
    into that directory, the scaffold, next to the entries that were
    there. *)
Theorem add_simple_name_adds_one_entry {os : OS} cwd platform name entries w :
  valid_platform platform →
  simple_name name →
  lookup_path cwd (disk w) = Some (Dir entries) →
  entries !! name = None →
  creation_allowed (cwd ++ [name]) (scaffold_files platform name) (disk w) →
  target cwd name = Path (cwd ++ [name]) false ∧
  ∃ d,
    addComponent cwd platform name w
    = (Ret tt,
       World d
         (console w ++
          [Log Green ("✓ Successfully created " +:+ name +:+ " for " +:+ platform +:+ "!")])) ∧
    lookup_path cwd d = Some (Dir (<[name := Dir (scaffold_files platform name)]> entries)).
Proof.
  intros Hp Hname Hcwd Hfree Hallow. pose proof (target_simple cwd name Hname) as Ht.
  split; [done |].
  destruct (ancestors_of_parent _ _ _ _ Hcwd Hfree) as [Hanc Habs].
  assert (segs (target cwd name) = cwd ++ [name]) as Hsegs by by rewrite Ht.
  rewrite <- Hsegs in Hanc, Habs, Hallow.
  eexists. split; [by apply add_succeeds |].
  rewrite Hsegs. by apply lookup_plant_parent.
Qed.

Lemma add_simple_name_adds_one_entry_witness :
  target sample_cwd "login" = Path (sample_cwd ++ ["login"]) false ∧
  ∃ d,
    addComponent (os := posix_limits) sample_cwd "expo" "login" (boot sample_disk)
    = (Ret tt, World d [Log Green "✓ Successfully created login for expo!"]) ∧
    lookup_path sample_cwd d
    = Some (Dir (<["login" := Dir (scaffold_files "expo" "login")]>
                   {[ "dashboard" := Dir {[ "page.tsx" := File "old" ]};
                      "notes.txt" := File "todo" ]})).
Proof.
  refine (add_simple_name_adds_one_entry (os := posix_limits) sample_cwd "expo" "login" _
            (boot sample_disk) _ _ _ _ _).
  - right. left. reflexivity.
  - repeat split; try discriminate. apply (bool_decide_unpack _). vm_compute. exact I.
  - vm_compute. reflexivity.
  - vm_compute. reflexivity.
  - apply posix_allows_scaffold; [right; by left | vm_compute; reflexivity].
Defined.





(** The root itself is not removed: from [/app], [remove ..] passes the
    existence check, [rmSync] fails on the root and nothing is deleted. *)
Example dotdot_at_root_is_refused :
  target ["app"] ".." = Path [] false ∧
  main (os := posix_limits) ["app"] sample_user ["next"; "remove"; ".."] (boot sample_disk)
  = (Exit 1,
     World sample_disk
       [Log Red "✗ Error removing component: EBUSY: resource busy or locked, rmdir '/'"]).
Proof. split; vm_compute; reflexivity. Qed.

(** ** Exit statuses *)

Lemma platform_not_valid platform :
  ¬ valid_platform platform →
  String.eqb platform "next" = false ∧ String.eqb platform "expo" = false ∧
  String.eqb platform "react-native" = false.
Proof.
  intros H. repeat split; apply String.eqb_neq; intros ->; apply H; unfold valid_platform; auto.
Qed.

(** X11: [addComponent] and [removeComponent] themselves do not check the
    platform: given one that is not among the three, no handler runs, the
    disk is left alone and the success line is printed all the same.
    Only the validation of the dispatcher and the fixed choices of the
    prompt keep such a platform away from them. *)
Theorem unknown_platform_falls_through {os : OS} cwd platform name w :
  ¬ valid_platform platform →
  addComponent cwd platform name w
  = (Ret tt,
     World (disk w)
       (console w ++
        [Log Green ("✓ Successfully created " +:+ name +:+ " for " +:+ platform +:+ "!")])) ∧
  removeComponent cwd platform name w
  = (Ret tt,
     World (disk w)
       (console w ++
        [Log Green ("✓ Successfully removed " +:+ name +:+ " from " +:+ platform +:+ "!")])).
Proof.
  intros H. destruct (platform_not_valid _ H) as (H1 & H2 & H3).
  unfold addComponent, removeComponent. rewrite H1, H2, H3. by run_proc.
Qed.

Lemma unknown_platform_falls_through_witness :
  addComponent (os := posix_limits) sample_cwd "android" "dashboard" (boot sample_disk)
  = (Ret tt, World sample_disk [Log Green "✓ Successfully created dashboard for android!"]) ∧
  removeComponent sample_cwd "android" "dashboard" (boot sample_disk)
  = (Ret tt, World sample_disk [Log Green "✓ Successfully removed dashboard from android!"]).
Proof.
  refine (unknown_platform_falls_through (os := posix_limits) sample_cwd "android" "dashboard" (boot sample_disk) _).
  intros [H | [H | H]]; discriminate H.
Defined.

Lemma read_valid_all_blank lines w :
  Forall whitespace_only lines →
  read_valid validateName lines w
  = (Blocked,
     World (disk w) (console w ++ map (λ _, Invalid "Name cannot be empty") lines)).
Proof.
  intros H. revert w. induction H as [|input lines Hin _ IH]; intros w.
  - simpl. rewrite app_nil_r. by destruct w.
  - cbn [read_valid map]. rewrite (validateName_rejects _ Hin).
    unfold bind at 1. unfold emit. rewrite IH. cbn [disk console].
    by rewrite <- app_assoc.
Qed.

(** X12: in interactive mode a name made of white space is never acted
    upon.  As long as every line typed at the name question is empty or
    blank, each is answered with [Name cannot be empty], no handler runs,
    the disk stays as it was and the prompt goes on waiting. *)
Theorem blank_names_keep_prompt_waiting {os : OS} cwd pick_platform pick_action lines w :
  Forall whitespace_only lines →
  main cwd (User pick_platform pick_action lines) [] w
  = (Blocked,
     World (disk w)
       (console w ++
        [Banner "DRUTA CLI";
         Log Blue "A CLI tool for React Native, Expo, and Next.js components
";
         Question "Select platform:"; Question "What do you want to do?";
         Question "Enter component/page name:"] ++
        map (λ _, Invalid "Name cannot be empty") lines)).
Proof.
  intros H. unfold main, parseArguments, welcome, sleep, interactiveCLI, list_prompt,
    input_prompt. cbn [typed]. run_proc.
  rewrite (read_valid_all_blank _ _ H). cbn [disk console].
  by rewrite <- !app_assoc.
Qed.

Lemma blank_names_keep_prompt_waiting_witness :
  main (os := posix_limits) sample_cwd (User 2 1 [""; "   "]) [] (boot sample_disk)
  = (Blocked,
     World sample_disk
       [Banner "DRUTA CLI";
        Log Blue "A CLI tool for React Native, Expo, and Next.js components
";
        Question "Select platform:"; Question "What do you want to do?";
        Question "Enter component/page name:";
        Invalid "Name cannot be empty"; Invalid "Name cannot be empty"]).
Proof.
  refine (blank_names_keep_prompt_waiting (os := posix_limits) sample_cwd 2 1 [""; "   "] (boot sample_disk) _).
  repeat constructor; by apply trimStart_empty.
Defined.

Lemma add_exit_shape {os : OS} cwd platform name w :
  valid_platform platform →
  fst (addComponent cwd platform name w) = Ret tt ∨
  fst (addComponent cwd platform name w) = Exit 1.
Proof.
  intros Hp.
  destruct (add_outcome cwd platform name w Hp)
    as (f1 & c1 & f2 & c2 & _ & _ &
        [(_ & reason & ->) |
         [(_ & e & d & reason & _ & ->) |
          (_ & _ & _ &
           [(e & reason & _ & ->) |
            [(_ & e & reason & _ & ->) | (_ & _ & ->)]])]]); auto.
Qed.

Lemma rmSync_shape t w :
  (∃ w', rmSync t w = (Ret tt, w')) ∨ (∃ e w', rmSync t w = (Throw e, w')).
Proof.
  unfold rmSync. destruct (segs t) as [|a p]; [right; by eauto |].
  destruct (lookup_path (a :: p) (disk w)) as [[|m]|]; [| left; by eauto ..].
  destruct (trailing t); [right | left]; by eauto.
Qed.

Lemma remove_exit_shape cwd platform name w :
  valid_platform platform →
  fst (removeComponent cwd platform name w) = Ret tt ∨
  fst (removeComponent cwd platform name w) = Exit 1.
Proof.
  intros Hp. rewrite (removeComponent_outcome _ _ _ _ Hp).
  destruct (fs_exists (target cwd name) (disk w)); [| by right].
  destruct (rmSync_shape (target cwd name) w) as [[w' ->] | (e & w' & ->)];
    [by left | by right].
Qed.

Lemma read_valid_shape validate lines w :
  (∃ input w', read_valid validate lines w = (Ret input, w')) ∨
  (∃ w', read_valid validate lines w = (Blocked, w')).
Proof.
  revert w. induction lines as [|input lines IH]; intros w; [right; by eauto |].
  cbn [read_valid]. destruct (validate input) as [|msg]; [left; by eauto |].
  unfold bind, emit. cbn [disk console].
  destruct (IH (World (disk w) (console w ++ [Invalid msg]))) as [(i & w' & ->) | [w' ->]];
    [left | right]; by eauto.
Qed.

Lemma interactive_exit_shape {os : OS} cwd u w :
  fst (interactiveCLI cwd u w) = Ret tt ∨
  fst (interactiveCLI cwd u w) = Exit 1 ∨
  fst (interactiveCLI cwd u w) = Blocked.
Proof.
  unfold interactiveCLI, list_prompt, input_prompt. cbn [length]. run_proc.
  match goal with |- context [read_valid ?v ?l ?w0] =>
    destruct (read_valid_shape v l w0) as [(input & w' & ->) | [w' ->]] end;
    [| right; by right].
  assert (valid_platform (nth (platform_choice u mod 3) ["next"; "expo"; "react-native"] ""))
    as Hp.
  { pose proof (Nat.mod_upper_bound (platform_choice u) 3 ltac:(done)) as Hlt.
    destruct (platform_choice u mod 3) as [|[|[|n]]]; cbn; unfold valid_platform; auto. lia. }
  set (platform := nth (platform_choice u mod 3) _ _) in *.
  pose proof (Nat.mod_upper_bound (action_choice u) 2 ltac:(done)) as Hlt.
  destruct (action_choice u mod 2) as [|[|n]]; cbn [nth String.eqb Ascii.eqb Bool.eqb];
    [| | lia].
  - destruct (add_exit_shape cwd platform input w' Hp) as [-> | ->]; auto.
  - destruct (remove_exit_shape cwd platform input w' Hp) as [-> | ->]; auto.
Qed.

Lemma main_passes {os : OS} cwd u args w :
  (∀ e, fst (parseArguments cwd u args w) ≠ Throw e) →
  main cwd u args w = parseArguments cwd u args w.
Proof.
  intros H. unfold main, try_catch.
  destruct (parseArguments cwd u args w) as [[a | e | code |] w']; try done.
  by destruct (H e).
Qed.

(** X13: no run ends in an uncaught error or with a status other than 0
    and 1.  Whatever the tokens, the disk and the person at the prompt,
    the program returns normally (status 0), exits with status 1, or
    when started without tokens only, is still waiting at the name
    question. *)
Theorem main_exit_status {os : OS} cwd u args w :
  fst (main cwd u args w) = Ret tt ∨
  fst (main cwd u args w) = Exit 1 ∨
  (args = [] ∧ fst (main cwd u args w) = Blocked).
Proof.
  assert (fst (parseArguments cwd u args w) = Ret tt ∨
          fst (parseArguments cwd u args w) = Exit 1 ∨
          (args = [] ∧ fst (parseArguments cwd u args w) = Blocked)) as H.
  { destruct args as [|platform [|action [|name rest]]].
    - unfold parseArguments, welcome, sleep. run_proc.
      destruct (interactive_exit_shape cwd u
                  (World (disk w)
                     (console w ++
                      [Banner "DRUTA CLI";
                       Log Blue "A CLI tool for React Native, Expo, and Next.js components
"]))) as [H | [H | H]]; auto.
    - unfold parseArguments. run_proc. auto.
    - unfold parseArguments. run_proc. auto.
    - unfold parseArguments.
      destruct (includes ["expo"; "next"; "react-native"] platform) eqn:Hp;
        [| run_proc; by auto].
      destruct (includes ["add"; "remove"] action) eqn:Ha; [| run_proc; by auto].
      apply includes_platforms in Hp. apply includes_actions in Ha.
      destruct Ha as [-> | ->]; cbn [negb String.eqb Ascii.eqb Bool.eqb].
      + destruct (add_exit_shape cwd platform name w Hp); auto.
      + destruct (remove_exit_shape cwd platform name w Hp); auto. }
  rewrite main_passes; [done |].
  intros e He. destruct H as [H | [H | [_ H]]]; rewrite H in He; discriminate He.
Qed.

(** ** Success criteria and compositions *)

Lemma plant_chain p files n q :
  ancestors_are_dirs p n → q `prefix_of` p →
  ∃ entries, lookup_path q (plant p (Dir files) n) = Some (Dir entries).
Proof.
  revert n q. induction p as [|a p IH]; intros n q Hanc Hq.
  - apply prefix_nil_inv in Hq as ->. by eauto.
  - destruct (ancestors_root _ _ Hanc) as [m ->].
    destruct q as [|b q]; [by eauto |].
    pose proof (prefix_cons_inv_1 _ _ _ _ Hq) as ->. apply prefix_cons_inv_2 in Hq.
    cbn [plant lookup_path]. rewrite lookup_insert_eq.
    apply IH; [by apply ancestors_cons | done].
Qed.

(** X14: for each platform, [add] returns normally exactly when nothing
    is at the target path, nothing on the way to it is a regular file and
    the operating system refuses neither to make a missing directory of
    the path nor to open one of the two files; in every other case it
    exits with status 1. *)
Theorem add_succeeds_exactly_when {os : OS} cwd platform name w :
  valid_platform platform →
  (fst (addComponent cwd platform name w) = Ret tt ↔
   lookup_path (segs (target cwd name)) (disk w) = None ∧
   ancestors_are_dirs (segs (target cwd name)) (disk w) ∧
   creation_allowed (segs (target cwd name)) (scaffold_files platform name) (disk w)) ∧
  (fst (addComponent cwd platform name w) ≠ Ret tt →
   fst (addComponent cwd platform name w) = Exit 1).
Proof.
  intros Hp. split.
  - split.
    + intros H. destruct (addComponent cwd platform name w) as [r w1] eqn:E.
      cbn [fst] in H. subst r.
      destruct (add_returns _ _ _ _ _ Hp E) as (? & ? & ? & _). done.
    + intros (Habs & Hanc & Hallow). by rewrite (add_succeeds _ _ _ _ Hp Habs Hanc Hallow).
  - intros H. by destruct (add_exit_shape cwd platform name w Hp).
Qed.

Lemma add_succeeds_exactly_when_witness :
  (fst (addComponent (os := posix_limits) sample_cwd "next" "dashboard/stats"
          (boot sample_disk)) = Ret tt ↔
   lookup_path (segs (target sample_cwd "dashboard/stats")) sample_disk = None ∧
   ancestors_are_dirs (segs (target sample_cwd "dashboard/stats")) sample_disk ∧
   creation_allowed (os := posix_limits) (segs (target sample_cwd "dashboard/stats"))
     (scaffold_files "next" "dashboard/stats") sample_disk) ∧
  (fst (addComponent (os := posix_limits) sample_cwd "next" "dashboard/stats"
          (boot sample_disk)) ≠ Ret tt →
   fst (addComponent (os := posix_limits) sample_cwd "next" "dashboard/stats"
          (boot sample_disk)) = Exit 1).
Proof.
  refine (add_succeeds_exactly_when (os := posix_limits) sample_cwd "next" "dashboard/stats"
            (boot sample_disk) _).
  left. reflexivity.
Defined.

(** Under [posix_limits] a name of 256 bytes is the one thing in the way:
    the target is absent and free of regular files, the creation is not
    allowed, and [add] exits with status 1. *)
Example add_long_name_not_allowed :
  lookup_path (segs (target sample_cwd long_name)) sample_disk = None ∧
  ¬ creation_allowed (os := posix_limits) (segs (target sample_cwd long_name))
      (scaffold_files "next" long_name) sample_disk ∧
  fst (addComponent (os := posix_limits) sample_cwd "next" long_name (boot sample_disk))
  = Exit 1.
Proof.
  split; [vm_compute; reflexivity |]. split; [| vm_compute; reflexivity].
  intros [Hmk _]. specialize (Hmk (segs (target sample_cwd long_name)) (reflexivity _)).
  assert (lookup_path (segs (target sample_cwd long_name)) sample_disk = None) as Habs.
  { vm_compute. reflexivity. }
  specialize (Hmk Habs). vm_compute in Hmk. discriminate Hmk.
Qed.



(** X16: a name with separators gets its whole chain of directories.
    After a successful [add], every path from the root down to the
    target is a directory, those that were missing having been made on
    the way. *)
Theorem add_makes_the_chain {os : OS} cwd platform name w q :
  valid_platform platform →
  fst (addComponent cwd platform name w) = Ret tt →
  q `prefix_of` segs (target cwd name) →
  ∃ entries,
    lookup_path q (disk (snd (addComponent cwd platform name w))) = Some (Dir entries).
Proof.
  intros Hp Hret Hq. destruct (addComponent cwd platform name w) as [r w1] eqn:E.
  cbn [fst snd] in *. subst r.
  destruct (add_returns _ _ _ _ _ Hp E) as (Habs & Hanc & _ & ->).
  cbn [disk]. by apply plant_chain.
Qed.

Lemma add_makes_the_chain_witness :
  ∃ entries,
    lookup_path ["app"; "widgets"]
      (disk (snd (addComponent (os := posix_limits) sample_cwd "expo" "widgets/button"
                    (boot sample_disk))))
    = Some (Dir entries).
Proof.
  refine (add_makes_the_chain (os := posix_limits) sample_cwd "expo" "widgets/button"
            (boot sample_disk) ["app"; "widgets"] _ _ _).
  - right. left. reflexivity.
  - vm_compute. reflexivity.
  - exists ["button"]. vm_compute. reflexivity.
Defined.



Example replace_runs :
  ∃ w1 w2,
    removeComponent sample_cwd "next" "dashboard" (boot sample_disk) = (Ret tt, w1) ∧
    addComponent (os := posix_limits) sample_cwd "expo" "dashboard" w1 = (Ret tt, w2) ∧
    lookup_path ["app"; "dashboard"] (disk w2) = Some (Dir (expoFiles "dashboard")).
Proof. eexists _, _. repeat split; vm_compute; reflexivity. Qed.

(** ** The capitalized name *)

(** X18: the capitalization used by the Next.js templates touches the
    first character only.  A name that begins with an ASCII character
    keeps its length and everything after that character, which is put
    in upper case when it is a small letter.  In general everything after
    the first character is kept, while the first may become more than one
    (the sharp s becomes two letters); a name that begins with a
    character outside the basic plane, or with bytes that are no
    character, is left as it is. *)
Theorem capitalized_first_character_only name :
  (∀ c rest, name = String c rest → (N_of_ascii c < 128)%N →
     String.length (capitalized name) = String.length name ∧
     capitalized name
     = String (if ((97 <=? N_of_ascii c) && (N_of_ascii c <=? 122))%N
               then ascii_of_N (N_of_ascii c - 32) else c) rest) ∧
  (∀ cp rest, decode_first name = Some (cp, rest) →
     capitalized name
     = if (cp <? 65536)%N then encode_utf8 (toUpperCase cp) +:+ rest else name) ∧
  (decode_first name = None → capitalized name = name).
Proof.
  split; [| split].
  - intros c rest -> Hc. rewrite (capitalized_ascii c rest Hc). by split.
  - intros cp rest H. unfold capitalized. by rewrite H.
  - intros H. unfold capitalized. by rewrite H.
Qed.

Example capitalized_one_to_two :
  capitalized "ßeta" = "SSeta" ∧ capitalized "ﬁsh" = "FIsh" ∧
  capitalized (capitalized "ßeta") = capitalized "ßeta".
Proof. vm_compute. by repeat split. Qed.
